(** * File Combiner: the ordered file list and the combination pass

    A shallow embedding of [src/app.py] (class [FileCombinerApp]): the
    methods [read_file], [add_files], [populate_table], [dropEvent] and
    [combine_files] become functions in a state-and-exception monad over the
    fields of [self] that they read and write.  What the Qt toolkit and the
    operating system answer (the dialogs, the clock, reading a source file,
    opening, writing and closing the destination) is collected in a record
    [World], so that every run is a function of the world and the state.
    A Python [str] is held as the string of the bytes of its UTF-8 encoding,
    which is what both [open] calls of the source ask for. *)

From Stdlib Require Import ZArith Ascii String Permutation.
From stdpp Require Import base list strings.

#[local] Set Warnings "-abstract-large-number".

Local Open Scope string_scope.
Local Open Scope list_scope.

(** ** Python values and exceptions *)

(** The exceptions the code can meet.  [FileNotFoundError] and
    [PermissionError] are the two subclasses of [OSError] the handlers name;
    [OSError] stands for every other [OSError], with [str(e)] as argument.
    [ValueError] covers [UnicodeDecodeError] (a read of a file that is not
    UTF-8) and a write to a closed file; [TypeError] is what [f.write]
    raises for an argument that is not a [str]; [IndexError] is a list
    index out of range. *)
Inductive exn : Type :=
| FileNotFoundError
| PermissionError
| OSError (str_e : string)
| ValueError
| TypeError
| IndexError.

Inductive result (A : Type) : Type :=
| Ok (a : A)
| Raise (e : exn).
Arguments Ok {A} a.
Arguments Raise {A} e.

(** The clauses [except FileNotFoundError], [except PermissionError] and
    [except OSError] together catch exactly these. *)
Definition is_OSError (e : exn) : bool :=
  match e with
  | FileNotFoundError | PermissionError | OSError _ => true
  | ValueError | TypeError | IndexError => false
  end.

(** ** The state of the application *)

(** [file_table] holds the rows (filename, path) of the table widget as
    [populate_table] last built them; rows that the toolkit moves or removes
    on its own are not followed.  [out_file] is the destination file:
    [None] while it was never opened, [Some chunks] once
    [open(save_file, "w")] truncated it, where [chunks] has, for each
    [f.write] so far and in order, the part of its string that is in the
    file.  That is the whole string as long as nothing failed (Python
    buffers the text, and all of it is in the file once the close has
    succeeded); once a write or the close has raised it is what lies within
    the bytes the device took. *)
Record State : Type := mkState {
  file_list : list string;
  file_table : list (string * string);
  last_directory : string;
  log_textbox : list string;
  out_file : option (list string)
}.

(** [datetime.datetime.now()], as far as ["%Y%m%d"] looks at it. *)
Record datetime : Type := mkDate { year : nat; month : nat; day : nat }.

(** What the environment answers.  [read_text p] is the outcome of
    [open(p, "r", encoding="utf-8")] followed by [f.read()]; [open_w p] is
    the exception raised by [open(p, "w", encoding="utf-8")], if any;
    [write_w k] is the exception raised by the write call that follows [k]
    completed ones, if any; [close_w] is the exception raised when the
    [with] statement closes the destination, if any.  The text file is
    buffered: a device that fails makes the [f.write] raise during which
    Python hands its buffer on, or the close, which flushes what is left;
    for a short output that is the close.  Which one it is, is thus part of
    the world.  [kept_w] is the number of bytes the device has taken when a
    write or the close raises: the destination then holds the first
    [kept_w] bytes of the text handed to [f.write] so far, the string of the
    raising write included. *)
Record World : Type := mkWorld {
  clock : datetime;
  getOpenFileNames : string -> list string;
  getSaveFileName : string -> string;
  read_text : string -> result string;
  open_w : string -> option exn;
  write_w : nat -> option exn;
  close_w : option exn;
  kept_w : nat
}.

(** ** The monad *)

Definition M (A : Type) : Type := State -> result A * State.

Definition ret {A} (a : A) : M A := fun st => (Ok a, st).

Definition raise {A} (e : exn) : M A := fun st => (Raise e, st).

Definition bind {A B} (c : M A) (k : A -> M B) : M B :=
  fun st =>
    match c st with
    | (Ok a, st') => k a st'
    | (Raise e, st') => (Raise e, st')
    end.

(** [try: c  except ...: h e]; a handler re-raises what it does not catch. *)
Definition try_except {A} (c : M A) (h : exn -> M A) : M A :=
  fun st =>
    match c st with
    | (Ok a, st') => (Ok a, st')
    | (Raise e, st') => h e st'
    end.

Declare Scope py_scope.
Delimit Scope py_scope with py.
Notation "x <- c ;; k" := (bind c (fun x => k))
  (at level 100, c at next level, right associativity) : py_scope.
Notation "c ;; k" := (bind c (fun _ => k))
  (at level 100, right associativity) : py_scope.
Local Open Scope py_scope.

Definition get : M State := fun st => (Ok st, st).

(** [for x in l: body x] *)
Fixpoint for_each {A} (l : list A) (body : A -> M unit) : M unit :=
  match l with
  | [] => ret tt
  | x :: l' => body x ;; for_each l' body
  end.

(** ** Field updates *)

Definition log_append (line : string) : M unit :=
  fun st =>
    (Ok tt, mkState (file_list st) (file_table st) (last_directory st)
              (log_textbox st ++ [line]) (out_file st)).

Definition file_list_append (file : string) : M unit :=
  fun st =>
    (Ok tt, mkState (file_list st ++ [file]) (file_table st) (last_directory st)
              (log_textbox st) (out_file st)).

Definition set_last_directory (d : string) : M unit :=
  fun st =>
    (Ok tt, mkState (file_list st) (file_table st) d
              (log_textbox st) (out_file st)).

Definition set_file_table (rows : list (string * string)) : M unit :=
  fun st =>
    (Ok tt, mkState (file_list st) rows (last_directory st)
              (log_textbox st) (out_file st)).

Definition set_file_list (l : list string) : M unit :=
  fun st =>
    (Ok tt, mkState l (file_table st) (last_directory st)
              (log_textbox st) (out_file st)).

Definition set_out_file (o : option (list string)) : M unit :=
  fun st =>
    (Ok tt, mkState (file_list st) (file_table st) (last_directory st)
              (log_textbox st) o).

(** ** The bytes that reach the destination *)

(** The first [n] bytes of [s]. *)
Fixpoint take_bytes (n : nat) (s : string) : string :=
  match n, s with
  | S n', String c r => String c (take_bytes n' r)
  | _, _ => EmptyString
  end.

(** The first [n] bytes of the strings [chunks] read as one text: each
    string is cut down to the part of it that lies within these bytes. *)
Fixpoint take_chunks (n : nat) (chunks : list string) : list string :=
  match chunks with
  | [] => []
  | s :: rest => take_bytes n s :: take_chunks (n - String.length s) rest
  end.

(** The device took [n] bytes and then failed. *)
Definition cut_out_file (n : nat) : M unit :=
  st <- get ;;
  set_out_file (option_map (take_chunks n) (out_file st)).

(** ** String helpers of the Python library *)

Definition slash : ascii := "/"%char.

(** The part of [s] before its last ["/"], when it has one. *)
Fixpoint before_last_slash (s : string) : option string :=
  match s with
  | EmptyString => None
  | String c r =>
      match before_last_slash r with
      | Some p => Some (String c p)
      | None => if Ascii.eqb c slash then Some EmptyString else None
      end
  end.

(** [s.rsplit("/", 1)[0]] *)
Definition rsplit_head (s : string) : string :=
  match before_last_slash s with
  | Some p => p
  | None => s
  end.

(** The part of [s] after its last ["/"], when it has one. *)
Fixpoint after_last_slash (s : string) : option string :=
  match s with
  | EmptyString => None
  | String c r =>
      match after_last_slash r with
      | Some t => Some t
      | None => if Ascii.eqb c slash then Some r else None
      end
  end.

(** [s.split("/")[-1]] *)
Definition split_last (s : string) : string :=
  match after_last_slash s with
  | Some t => t
  | None => s
  end.

Definition digit_char (d : nat) : ascii := ascii_of_nat (48 + d).

(** [n] as [w] decimal digits, zero-padded on the left. *)
Fixpoint zero_pad (w n : nat) : string :=
  match w with
  | O => EmptyString
  | S w' => zero_pad w' (n / 10) +:+ String (digit_char (n mod 10)) EmptyString
  end.

(** [d.strftime("%Y%m%d")]: the year with century, then month and day of
    the month, each zero-padded to two digits.  (For a year below 1000 the
    C library decides whether [%Y] pads; the clock never gives one.) *)
Definition strftime_Ymd (d : datetime) : string :=
  zero_pad 4 (year d) +:+ zero_pad 2 (month d) +:+ zero_pad 2 (day d).

(** ** Python list indexing *)

(** The position a Python index denotes in a list of length [len]:
    negative indices count from the end, anything else is out of range. *)
Definition py_index (len : nat) (i : Z) : option nat :=
  let n := Z.of_nat len in
  if (0 <=? i)%Z then
    if (i <? n)%Z then Some (Z.to_nat i) else None
  else
    if (- n <=? i)%Z then Some (Z.to_nat (n + i)) else None.

(** [self.file_list[i]] *)
Definition file_list_getitem (i : Z) : M string :=
  fun st =>
    match py_index (List.length (file_list st)) i with
    | Some k =>
        match file_list st !! k with
        | Some x => (Ok x, st)
        | None => (Raise IndexError, st)
        end
    | None => (Raise IndexError, st)
    end.

(** [self.file_list[i] = x] *)
Definition file_list_setitem (i : Z) (x : string) : M unit :=
  fun st =>
    match py_index (List.length (file_list st)) i with
    | Some k => set_file_list (<[k := x]> (file_list st)) st
    | None => (Raise IndexError, st)
    end.

(** ** The methods of [FileCombinerApp] *)

Module FileCombinerApp.

(** [__init__], as far as the fields above go ([settings.value] answers
    the stored directory). *)
Definition init (stored_directory : string) : State :=
  mkState [] [] stored_directory [] None.

Definition read_file (w : World) (file_path : string) : M (option string) :=
  try_except
    (match read_text w file_path with
     | Ok s => ret (Some s)
     | Raise e => raise e
     end)
    (fun e =>
       match e with
       | FileNotFoundError =>
           log_append ("File not found: " +:+ file_path) ;; ret None
       | PermissionError =>
           log_append ("Permission denied: " +:+ file_path) ;; ret None
       | OSError str_e =>
           log_append ("Error reading file: " +:+ str_e) ;; ret None
       | _ => raise e
       end).

Definition populate_table : M unit :=
  st <- get ;;
  set_file_table (map (fun file => (split_last file, file)) (file_list st)).

(** The loop body of [add_files]: the [append] of the file list. *)
Definition add_file (file : string) : M unit :=
  log_append ("Added file: " +:+ file) ;;
  file_list_append file.

Definition add_files (w : World) : M unit :=
  st <- get ;;
  let files := getOpenFileNames w (last_directory st) in
  match files with
  | [] => ret tt
  | file0 :: _ =>
      set_last_directory (rsplit_head file0) ;;
      for_each files add_file ;;
      populate_table
  end.

(** [selected_row] and [target_row] are what [currentRow()] and
    [indexAt(event.pos()).row()] answer, the latter being [-1] or an
    existing row of the table; [from_table] is
    [event.source() == self.file_table].  The calls [setDropAction] and
    [accept] act on the event and [super().dropEvent] on the window: they
    touch none of the fields of the state. *)
Definition dropEvent (from_table : bool) (selected_row target_row : Z) : M unit :=
  if from_table then
    if ((target_row >=? 0)%Z && negb (target_row =? selected_row)%Z)%bool then
      a <- file_list_getitem target_row ;;
      b <- file_list_getitem selected_row ;;
      file_list_setitem selected_row a ;;
      file_list_setitem target_row b ;;
      populate_table
    else ret tt
  else ret tt.

(** The line break ["\n"]. *)
Definition newline : string := String "010"%char EmptyString.

Definition seperator : string :=
  "************************************************************************"
  +:+ newline.

(** [f.write(x)] for the value [x], [None] being Python's [None].  A
    write that returns has taken its string; a write that raises leaves in
    the file the bytes the device took, of the earlier strings and of its
    own. *)
Definition f_write (w : World) (x : option string) : M unit :=
  fun st =>
    match x with
    | None => (Raise TypeError, st)
    | Some s =>
        match out_file st with
        | None => (Raise ValueError, st)
        | Some chunks =>
            match write_w w (List.length chunks) with
            | Some e =>
                (set_out_file (Some (chunks ++ [s])) ;;
                 cut_out_file (kept_w w) ;;
                 raise e) st
            | None => set_out_file (Some (chunks ++ [s])) st
            end
        end
    end.

(** [with open(path, "w", encoding="utf-8") as f: body]: the file is closed
    when the body leaves, also by an exception; an exception of the close
    replaces the body's, and a close that raises leaves in the file the
    bytes the device took. *)
Definition with_open_w (w : World) (path : string) (body : M unit) : M unit :=
  fun st =>
    match open_w w path with
    | Some e => (Raise e, st)
    | None =>
        match (set_out_file (Some []) ;; body) st with
        | (r, st') =>
            match close_w w with
            | Some e => (cut_out_file (kept_w w) ;; raise e) st'
            | None => (r, st')
            end
        end
    end.

(** The body of the [for] loop of [combine_files]. *)
Definition write_block (w : World) (file_path : string) : M unit :=
  content <- read_file w file_path ;;
  f_write w (Some (seperator +:+ file_path +:+ newline +:+ seperator)) ;;
  f_write w content ;;
  f_write w (Some (newline +:+ newline)).

Definition default_filename (now : datetime) : string :=
  "combined_" +:+ strftime_Ymd now +:+ ".txt".

(** The path the save dialog is opened on. *)
Definition offered_path (w : World) (st : State) : string :=
  last_directory st +:+ "/" +:+ default_filename (clock w).

(** The [try] statement of [combine_files]. *)
Definition save_combined (w : World) (save_file : string) : M unit :=
  try_except
    (with_open_w w save_file
       (st <- get ;;
        for_each (file_list st) (write_block w) ;;
        log_append "Files combined successfully.") ;;
     log_append ("Combined file saved as: " +:+ save_file))
    (fun e =>
       match e with
       | FileNotFoundError =>
           log_append ("Destination file not found: " +:+ save_file)
       | PermissionError =>
           log_append ("Permission denied for destination file: " +:+ save_file)
       | OSError str_e =>
           log_append ("Error saving combined file: " +:+ str_e)
       | _ => raise e
       end).

Definition combine_files (w : World) : M unit :=
  st <- get ;;
  let save_file := getSaveFileName w (offered_path w st) in
  match save_file with
  | EmptyString => ret tt
  | String _ _ =>
      set_last_directory (rsplit_head save_file) ;;
      save_combined w save_file
  end.

End FileCombinerApp.

Import FileCombinerApp.

(** ** Derived notions used in the statements *)

(** What [l[i], l[j] = l[j], l[i]] leaves in the list. *)
Definition exchanged (l : list string) (i j : nat) (li lj : string) : list string :=
  <[j := li]> (<[i := lj]> l).

(** The transposition of two positions. *)
Definition transpose (i j k : nat) : nat :=
  if decide (k = j) then i else if decide (k = i) then j else k.

Definition populated (l : list string) : list (string * string) :=
  map (fun file => (split_last file, file)) l.

Definition with_file_list (st : State) (l : list string) : State :=
  mkState l (populated l) (last_directory st) (log_textbox st) (out_file st).

Definition state_of_list (l : list string) : State :=
  mkState l (populated l) "" [] None.

(** The three strings one pass of the loop of [combine_files] hands to
    [f.write] for a path whose read gave [content]. *)
Definition block_chunks (file_path content : string) : list string :=
  [seperator +:+ file_path +:+ newline +:+ seperator; content; newline +:+ newline].

(** Everything the loop of [combine_files] writes for the paths [l], when
    the read of a path [p] gives [contents p]. *)
Definition blocks_chunks (contents : string -> string) (l : list string) : list string :=
  flat_map (fun file_path => block_chunks file_path (contents file_path)) l.

(** The text of a file that received [chunks], in order. *)
Definition written_text (chunks : list string) : string :=
  foldr String.append EmptyString chunks.

(** A line of [n] asterisks followed by a line break. *)
Definition separator_line (n : nat) : string :=
  string_of_list_ascii (replicate n "*"%char) +:+ newline.

(** The block of the output format as the specification words it: a
    separator line of 72 asterisks, the path and a line break, the same
    separator line, the content, two line breaks. *)
Definition spec_block (file_path content : string) : string :=
  separator_line 72 +:+ (file_path +:+ newline) +:+ separator_line 72
  +:+ content +:+ (newline +:+ newline).

(** The line [read_file] logs for an exception it catches. *)
Definition read_error_line (e : exn) (file_path : string) : string :=
  match e with
  | FileNotFoundError => "File not found: " +:+ file_path
  | PermissionError => "Permission denied: " +:+ file_path
  | OSError str_e => "Error reading file: " +:+ str_e
  | _ => EmptyString
  end.

(** The line [combine_files] logs for an exception it catches. *)
Definition save_error_line (e : exn) (save_file : string) : string :=
  match e with
  | FileNotFoundError => "Destination file not found: " +:+ save_file
  | PermissionError => "Permission denied for destination file: " +:+ save_file
  | OSError str_e => "Error saving combined file: " +:+ str_e
  | _ => EmptyString
  end.

(** [s.startswith(prefix)] *)
Fixpoint startswith (s prefix : string) {struct prefix} : bool :=
  match prefix with
  | EmptyString => true
  | String a prefix' =>
      match s with
      | EmptyString => false
      | String b s' => Ascii.eqb a b && startswith s' prefix'
      end
  end.

(** Whether a log line reports a failure of the destination. *)
Definition is_save_error_line (line : string) : bool :=
  startswith line "Destination file not found: "
  || startswith line "Permission denied for destination file: "
  || startswith line "Error saving combined file: ".

Definition with_out_file (st : State) (o : option (list string)) : State :=
  mkState (file_list st) (file_table st) (last_directory st) (log_textbox st) o.

Definition with_log (st : State) (lines : list string) : State :=
  mkState (file_list st) (file_table st) (last_directory st)
    (log_textbox st ++ lines) (out_file st).

Definition with_directory (st : State) (d : string) : State :=
  mkState (file_list st) (file_table st) d (log_textbox st) (out_file st).

(** The state [combine_files] leaves once the dialog gave [save_file]:
    the directory is remembered, [lines] are logged, and the destination
    is as [o] says. *)
Definition combined_state (st : State) (save_file : string)
    (lines : list string) (o : option (list string)) : State :=
  mkState (file_list st) (file_table st) (rsplit_head save_file)
    (log_textbox st ++ lines) o.

(** Reading a decimal numeral. *)
Definition digit_value (c : ascii) : option nat :=
  let n := nat_of_ascii c in
  if ((48 <=? n)%nat && (n <=? 57)%nat)%bool then Some (n - 48) else None.

Fixpoint decimal_from (acc : nat) (s : string) : option nat :=
  match s with
  | EmptyString => Some acc
  | String c r =>
      match digit_value c with
      | Some d => decimal_from (10 * acc + d) r
      | None => None
      end
  end.

(** [s] is the numeral of [n] written with exactly [width] digits. *)
Definition is_decimal (width : nat) (s : string) (n : nat) : Prop :=
  String.length s = width /\ decimal_from 0 s = Some n.

(** A world for the examples: the clock shows 18 October 2024, the open
    dialog answers nothing, the save dialog answers ["/tmp/out.txt"], and
    closing the destination succeeds. *)
Definition example_world (reads : string -> result string) (opens : option exn)
    (writes : nat -> option exn) : World :=
  mkWorld (mkDate 2024 10 18) (fun _ => []) (fun _ => "/tmp/out.txt")
    reads (fun _ => opens) writes None 0.

(** The [OSError] of a device without space left. *)
Definition no_space : exn := OSError "[Errno 28] No space left on device".

(** The same world with a destination on a device that takes [capacity]
    bytes and then has no space left; [writes] says which write meets the
    failure, and [closes] whether the close succeeds. *)
Definition full_device_world (reads : string -> result string)
    (writes : nat -> option exn) (closes : bool) (capacity : nat) : World :=
  mkWorld (mkDate 2024 10 18) (fun _ => []) (fun _ => "/tmp/out.txt")
    reads (fun _ => None) writes (if closes then None else Some no_space) capacity.

(** A text of [n] bytes. *)
Definition xs (n : nat) : string := string_of_list_ascii (replicate n "x"%char).

(** ["/tmp/a.txt"] holds [hello], ["/tmp/b.txt"] does not exist. *)
Definition reads_a_only (file_path : string) : result string :=
  if String.eqb file_path "/tmp/a.txt" then Ok "hello" else Raise FileNotFoundError.

(** ["/tmp/a.txt"] holds [hello], every other file holds [world]. *)
Definition contents_a_b (file_path : string) : string :=
  if String.eqb file_path "/tmp/a.txt" then "hello" else "world".

(** The destination refuses the write that follows [n] completed ones,
    for want of space. *)
Definition full_after (n : nat) (k : nat) : option exn :=
  if (k =? n)%nat then Some (OSError "[Errno 28] No space left on device") else None.

(** The two lines [foo] and [bar], with the line break between them. *)
Definition foo_bar : string := "foo" +:+ newline +:+ "bar".

(** Whether [s] has a ["/"] in it. *)
Fixpoint has_slash (s : string) : bool :=
  match s with
  | EmptyString => false
  | String c r => Ascii.eqb c slash || has_slash r
  end.

(** A run from [st] to [st'] has either left the file list and the rows
    of the table alone, or ended by rebuilding the rows from the list. *)
Definition table_follows (st st' : State) : Prop :=
  (file_list st' = file_list st /\ file_table st' = file_table st) \/
  file_table st' = populated (file_list st').

(** [p] is the beginning of the text [t]. *)
Definition text_prefix (p t : string) : Prop := exists rest, t = p +:+ rest.

(** The exception that leaves the [with] statement when its body ended by
    [e]: the one of the close, when the close raises too. *)
Definition leaving_exn (w : World) (e : exn) : exn :=
  match close_w w with
  | Some e' => e'
  | None => e
  end.

(** What the read of [file_path] contributes to the output: its content,
    or nothing when the read fails. *)
Definition contents_of (w : World) (file_path : string) : string :=
  match read_text w file_path with
  | Ok content => content
  | Raise _ => EmptyString
  end.

(** [st'] differs from [st] at most by lines added to the log and by the
    destination. *)
Definition only_logs (st st' : State) : Prop :=
  file_list st' = file_list st /\
  file_table st' = file_table st /\
  last_directory st' = last_directory st /\
  exists lines, log_textbox st' = log_textbox st ++ lines.

(** Every run of [c] changes at most the log and the destination. *)
Definition logs_only {A} (c : M A) : Prop :=
  forall st, only_logs st (snd (c st)).

(** ** Indexing lemmas *)

Lemma py_index_in_range (len : nat) (i : Z) :
  (0 <= i < Z.of_nat len)%Z -> py_index len i = Some (Z.to_nat i).
Proof.
  intros [H0 H1]. unfold py_index.
  destruct (Z.leb_spec 0 i); [|lia].
  destruct (Z.ltb_spec i (Z.of_nat len)); [reflexivity|lia].
Qed.

Lemma py_index_lt (len : nat) (i : Z) (k : nat) :
  py_index len i = Some k -> k < len.
Proof.
  unfold py_index.
  destruct (Z.leb_spec 0 i).
  - destruct (Z.ltb_spec i (Z.of_nat len)); [|discriminate].
    intros [= <-]. lia.
  - destruct (Z.leb_spec (- Z.of_nat len) i); [|discriminate].
    intros [= <-]. lia.
Qed.

(** In range, two different indices denote two different positions. *)
Lemma py_index_nonneg_inj (len : nat) (i j : Z) (k : nat) :
  (0 <= i)%Z -> (0 <= j)%Z ->
  py_index len i = Some k -> py_index len j = Some k -> i = j.
Proof.
  unfold py_index. intros Hi Hj.
  destruct (Z.leb_spec 0 i); [|lia].
  destruct (Z.leb_spec 0 j); [|lia].
  destruct (Z.ltb_spec i (Z.of_nat len)); [|discriminate].
  destruct (Z.ltb_spec j (Z.of_nat len)); [|discriminate].
  intros [= <-] [= E]. lia.
Qed.

Lemma file_list_getitem_Some (st : State) (i : Z) (k : nat) :
  py_index (List.length (file_list st)) i = Some k ->
  exists x, file_list st !! k = Some x /\ file_list_getitem i st = (Ok x, st).
Proof.
  intros Hk. unfold file_list_getitem. rewrite Hk.
  destruct (lookup_lt_is_Some_2 (file_list st) k (py_index_lt _ _ _ Hk)) as [x Hx].
  exists x. rewrite Hx. split; reflexivity.
Qed.

Lemma file_list_getitem_None (st : State) (i : Z) :
  py_index (List.length (file_list st)) i = None ->
  file_list_getitem i st = (Raise IndexError, st).
Proof. intros Hk. unfold file_list_getitem. rewrite Hk. reflexivity. Qed.

(** ** Exchanging two entries *)

Lemma exchanged_length l i j li lj :
  List.length (exchanged l i j li lj) = List.length l.
Proof. unfold exchanged. rewrite !length_insert. reflexivity. Qed.

Lemma exchanged_lookup (l : list string) i j li lj k :
  l !! i = Some li -> l !! j = Some lj ->
  exchanged l i j li lj !! k =
    if decide (k = j) then l !! i
    else if decide (k = i) then l !! j
    else l !! k.
Proof.
  intros Hi Hj. unfold exchanged.
  assert (i < List.length l) by (apply lookup_lt_is_Some; eauto).
  assert (j < List.length l) by (apply lookup_lt_is_Some; eauto).
  destruct (decide (k = j)) as [->|Hkj].
  - rewrite list_lookup_insert_eq; [congruence|]. rewrite length_insert. lia.
  - rewrite list_lookup_insert_ne by congruence.
    destruct (decide (k = i)) as [->|Hki].
    + rewrite list_lookup_insert_eq; [congruence|lia].
    + rewrite list_lookup_insert_ne by congruence. reflexivity.
Qed.

Lemma exchanged_twice (l : list string) i j li lj :
  l !! i = Some li -> l !! j = Some lj -> i <> j ->
  exchanged (exchanged l i j li lj) i j lj li = l.
Proof.
  intros Hi Hj Hne. apply list_eq. intros k.
  assert (E : forall n, exchanged l i j li lj !! n =
                if decide (n = j) then l !! i
                else if decide (n = i) then l !! j else l !! n)
    by (intros n; apply exchanged_lookup; assumption).
  rewrite exchanged_lookup.
  - rewrite !E.
    repeat (case_decide; subst; try congruence).
  - rewrite E. repeat (case_decide; subst; try congruence).
  - rewrite E. repeat (case_decide; subst; try congruence).
Qed.

Lemma transpose_inj i j : Inj eq eq (transpose i j).
Proof.
  intros a b. unfold transpose.
  repeat (case_decide; subst; try congruence).
Qed.

Lemma exchanged_Permutation (l : list string) i j li lj :
  l !! i = Some li -> l !! j = Some lj ->
  exchanged l i j li lj ≡ₚ l.
Proof.
  intros Hi Hj. apply Permutation_inj. split.
  - apply exchanged_length.
  - exists (transpose i j). split; [apply transpose_inj|].
    intros k. rewrite (exchanged_lookup l i j li lj k Hi Hj).
    unfold transpose. repeat (case_decide; subst; try congruence).
Qed.

(** ** Runs of [dropEvent] *)

Lemma dropEvent_guard_rejects (st : State) (from_table : bool) (sel tgt : Z) :
  from_table = false \/ (tgt < 0)%Z \/ tgt = sel ->
  dropEvent from_table sel tgt st = (Ok tt, st).
Proof.
  intros H. unfold dropEvent. destruct from_table; [|reflexivity].
  destruct H as [H|[H|H]]; [discriminate| |].
  - destruct (Z.geb_spec tgt 0); [lia|reflexivity].
  - subst. rewrite Z.eqb_refl, andb_false_r. reflexivity.
Qed.

Lemma dropEvent_guard_accepts (st : State) (sel tgt : Z) :
  (0 <= tgt)%Z -> tgt <> sel ->
  dropEvent true sel tgt st =
    (a <- file_list_getitem tgt ;;
     b <- file_list_getitem sel ;;
     file_list_setitem sel a ;;
     file_list_setitem tgt b ;;
     populate_table) st.
Proof.
  intros H0 Hne. unfold dropEvent.
  destruct (Z.geb_spec tgt 0); [|lia].
  destruct (Z.eqb_spec tgt sel); [contradiction|]. reflexivity.
Qed.

(** The run of an accepted drop whose two indices both denote positions. *)
Lemma dropEvent_exchanges (st : State) (sel tgt : Z) (i j : nat) :
  (0 <= tgt)%Z -> tgt <> sel ->
  py_index (List.length (file_list st)) sel = Some i ->
  py_index (List.length (file_list st)) tgt = Some j ->
  exists li lj,
    file_list st !! i = Some li /\ file_list st !! j = Some lj /\
    dropEvent true sel tgt st =
      (Ok tt, with_file_list st (exchanged (file_list st) i j li lj)).
Proof.
  intros H0 Hne Hi Hj.
  destruct (file_list_getitem_Some st sel i Hi) as (li & Hli & Gi).
  destruct (file_list_getitem_Some st tgt j Hj) as (lj & Hlj & Gj).
  exists li, lj. split; [assumption|]. split; [assumption|].
  rewrite dropEvent_guard_accepts by assumption.
  unfold bind at 1. rewrite Gj.
  unfold bind at 1. rewrite Gi.
  unfold bind at 1. unfold file_list_setitem at 1. rewrite Hi.
  cbn [set_file_list].
  unfold bind at 1. unfold file_list_setitem. cbn [file_list].
  rewrite length_insert, Hj. reflexivity.
Qed.

(** An accepted drop with an index out of range raises before it assigns. *)
Lemma dropEvent_out_of_range (st : State) (sel tgt : Z) :
  (0 <= tgt)%Z -> tgt <> sel ->
  py_index (List.length (file_list st)) sel = None \/
  py_index (List.length (file_list st)) tgt = None ->
  dropEvent true sel tgt st = (Raise IndexError, st).
Proof.
  intros H0 Hne H.
  rewrite dropEvent_guard_accepts by assumption.
  unfold bind at 1.
  destruct (py_index (List.length (file_list st)) tgt) as [j|] eqn:Hj.
  - destruct (file_list_getitem_Some st tgt j Hj) as (lj & _ & ->).
    destruct H as [H|H]; [|discriminate].
    unfold bind at 1. rewrite (file_list_getitem_None st sel H). reflexivity.
  - rewrite (file_list_getitem_None st tgt Hj). reflexivity.
Qed.

(** ** The file list: [dropEvent] as the move operation *)



(** C4.  For every state and every pair of in-range indices [sel <> tgt],
    two drops in succession with the same arguments both return normally
    and leave the file list in its original order. *)
Theorem dropEvent_twice_restores (st : State) (sel tgt : Z)
    (Hsel : (0 <= sel < Z.of_nat (List.length (file_list st)))%Z)
    (Htgt : (0 <= tgt < Z.of_nat (List.length (file_list st)))%Z)
    (Hne : tgt <> sel) :
  exists st1 st2,
    dropEvent true sel tgt st = (Ok tt, st1) /\
    dropEvent true sel tgt st1 = (Ok tt, st2) /\
    file_list st2 = file_list st.
Proof.
  set (i := Z.to_nat sel). set (j := Z.to_nat tgt).
  assert (Hij : i <> j) by (subst i j; lia).
  destruct (dropEvent_exchanges st sel tgt i j)
    as (li & lj & Hli & Hlj & Hrun1);
    [lia|assumption|apply py_index_in_range; assumption
    |apply py_index_in_range; assumption|].
  set (st1 := with_file_list st (exchanged (file_list st) i j li lj)) in *.
  assert (Hlen : List.length (file_list st1) = List.length (file_list st))
    by apply exchanged_length.
  destruct (dropEvent_exchanges st1 sel tgt i j)
    as (li' & lj' & Hli' & Hlj' & Hrun2);
    [lia|assumption
    |rewrite Hlen; apply py_index_in_range; assumption
    |rewrite Hlen; apply py_index_in_range; assumption|].
  exists st1. eexists. split; [exact Hrun1|]. split; [exact Hrun2|].
  cbn [with_file_list file_list] in *.
  rewrite (exchanged_lookup _ _ _ _ _ _ Hli Hlj) in Hli'.
  rewrite (exchanged_lookup _ _ _ _ _ _ Hli Hlj) in Hlj'.
  repeat (case_decide; try congruence).
  assert (li' = lj) by congruence. assert (lj' = li) by congruence. subst.
  apply exchanged_twice; assumption.
Qed.

Lemma dropEvent_twice_restores_witness :
  exists st1 st2,
    dropEvent true 0 2 (state_of_list ["/tmp/a.txt"; "/tmp/b.txt"; "/tmp/c.txt"])
      = (Ok tt, st1) /\
    dropEvent true 0 2 st1 = (Ok tt, st2) /\
    file_list st2 = ["/tmp/a.txt"; "/tmp/b.txt"; "/tmp/c.txt"].
Proof.
  apply (dropEvent_twice_restores
           (state_of_list ["/tmp/a.txt"; "/tmp/b.txt"; "/tmp/c.txt"]) 0 2);
    simpl; lia.
Defined.

(** C10.  Whatever the indices (accepted by the guard or not, in range or
    not, negative or not) and whether the drop returns or raises, the file
    list it leaves has the length of the one it found and is a permutation
    of it: no path is inserted, dropped or duplicated. *)
Theorem dropEvent_permutes (st : State) (from_table : bool) (sel tgt : Z) :
  let st' := snd (dropEvent from_table sel tgt st) in
  List.length (file_list st') = List.length (file_list st) /\
  file_list st' ≡ₚ file_list st.
Proof.
  cbn zeta.
  destruct from_table; [|rewrite dropEvent_guard_rejects by auto; split; reflexivity].
  destruct (Z.lt_ge_cases tgt 0) as [Hneg|Hpos];
    [rewrite dropEvent_guard_rejects by auto; split; reflexivity|].
  destruct (Z.eq_dec tgt sel) as [Heq|Hne];
    [rewrite dropEvent_guard_rejects by auto; split; reflexivity|].
  destruct (py_index (List.length (file_list st)) sel) as [i|] eqn:Hi;
    [|rewrite dropEvent_out_of_range by auto; split; reflexivity].
  destruct (py_index (List.length (file_list st)) tgt) as [j|] eqn:Hj;
    [|rewrite dropEvent_out_of_range by auto; split; reflexivity].
  destruct (dropEvent_exchanges st sel tgt i j Hpos Hne Hi Hj)
    as (li & lj & Hli & Hlj & ->).
  cbn [snd with_file_list file_list]. split.
  - apply exchanged_length.
  - apply exchanged_Permutation; assumption.
Qed.

(** ** The file list: appending *)

Lemma add_file_run (file : string) (st : State) :
  add_file file st =
    (Ok tt, mkState (file_list st ++ [file]) (file_table st) (last_directory st)
              (log_textbox st ++ ["Added file: " +:+ file]) (out_file st)).
Proof. reflexivity. Qed.

Lemma for_each_add_file_run (files : list string) (st : State) :
  for_each files add_file st =
    (Ok tt, mkState (file_list st ++ files) (file_table st) (last_directory st)
              (log_textbox st ++ map (fun file => "Added file: " +:+ file) files)
              (out_file st)).
Proof.
  revert st. induction files as [|file files IH]; intros st.
  - cbn [for_each map]. unfold ret. rewrite !app_nil_r. destruct st; reflexivity.
  - cbn [for_each map]. unfold bind. rewrite add_file_run, IH.
    cbn [file_list file_table last_directory log_textbox out_file].
    rewrite <- !app_assoc. reflexivity.
Qed.

(** C5.  Adding a path returns normally for every path and every state,
    checks nothing about the path (one that is already listed is added
    again), keeps the entries already listed in their order and puts the
    path at the end, so the length grows by exactly one; the loop of
    [add_files] over any paths, started on the empty list, leaves exactly
    those paths in call order; and [add_files] appends what the dialog
    answers to the list it finds. *)
Theorem add_files_appends :
  (forall (path : string) (st : State),
      exists st',
        add_file path st = (Ok tt, st') /\
        file_list st' = file_list st ++ [path] /\
        List.length (file_list st') = S (List.length (file_list st))) /\
  (forall (paths : list string) (stored_directory : string),
      exists st',
        for_each paths add_file (init stored_directory) = (Ok tt, st') /\
        file_list st' = paths /\
        List.length (file_list st') = List.length paths) /\
  (forall (w : World) (st : State),
      exists st',
        add_files w st = (Ok tt, st') /\
        file_list st' = file_list st ++ getOpenFileNames w (last_directory st)).
Proof.
  split; [|split].
  - intros path st. eexists. split; [apply add_file_run|].
    cbn [file_list]. split; [reflexivity|].
    rewrite length_app. cbn [List.length]. lia.
  - intros paths d. eexists. split; [apply for_each_add_file_run|].
    cbn [file_list init]. split; reflexivity.
  - intros w st. unfold add_files, bind, get.
    destruct (getOpenFileNames w (last_directory st)) as [|file0 files] eqn:E.
    + exists st. rewrite app_nil_r. split; reflexivity.
    + cbn [set_last_directory]. rewrite for_each_add_file_run.
      eexists. split; [reflexivity|]. reflexivity.
Qed.

(** ** Runs of [read_file] and [f_write] *)

Section Combine.

Variable w : World.

Lemma read_file_ok (file_path content : string) (st : State) :
  read_text w file_path = Ok content ->
  read_file w file_path st = (Ok (Some content), st).
Proof. intros H. unfold read_file, try_except. rewrite H. reflexivity. Qed.

Lemma read_file_caught (file_path : string) (e : exn) (st : State) :
  read_text w file_path = Raise e -> is_OSError e = true ->
  read_file w file_path st = (Ok None, with_log st [read_error_line e file_path]).
Proof.
  intros H He. unfold read_file, try_except. rewrite H.
  destruct e; try discriminate He; reflexivity.
Qed.

Lemma read_file_uncaught (file_path : string) (e : exn) (st : State) :
  read_text w file_path = Raise e -> is_OSError e = false ->
  read_file w file_path st = (Raise e, st).
Proof.
  intros H He. unfold read_file, try_except. rewrite H.
  destruct e; try discriminate He; reflexivity.
Qed.

Lemma f_write_ok (s : string) (st : State) (chunks : list string) :
  out_file st = Some chunks -> write_w w (List.length chunks) = None ->
  f_write w (Some s) st = (Ok tt, with_out_file st (Some (chunks ++ [s]))).
Proof. intros Ho Hw. unfold f_write. rewrite Ho, Hw. reflexivity. Qed.

Lemma f_write_fails (s : string) (st : State) (chunks : list string) (e : exn) :
  out_file st = Some chunks -> write_w w (List.length chunks) = Some e ->
  f_write w (Some s) st =
    (Raise e, with_out_file st (Some (take_chunks (kept_w w) (chunks ++ [s])))).
Proof. intros Ho Hw. unfold f_write. rewrite Ho, Hw. reflexivity. Qed.

Lemma f_write_None (st : State) : f_write w None st = (Raise TypeError, st).
Proof. reflexivity. Qed.

(** ** Runs of the loop body *)

Lemma write_block_ok (file_path content : string) (st : State) (chunks : list string) :
  read_text w file_path = Ok content ->
  out_file st = Some chunks ->
  (forall k, List.length chunks <= k < List.length chunks + 3 -> write_w w k = None) ->
  write_block w file_path st =
    (Ok tt, with_out_file st (Some (chunks ++ block_chunks file_path content))).
Proof.
  intros Hr Ho Hw. unfold write_block.
  unfold bind at 1. rewrite (read_file_ok _ _ _ Hr).
  unfold bind at 1. rewrite (f_write_ok _ st chunks Ho) by (apply Hw; lia).
  unfold bind at 1.
  rewrite (f_write_ok _ _ (chunks ++ [seperator +:+ file_path +:+ newline +:+ seperator]))
    by (try reflexivity; rewrite length_app; apply Hw; cbn [List.length]; lia).
  rewrite (f_write_ok _ _
             ((chunks ++ [seperator +:+ file_path +:+ newline +:+ seperator]) ++ [content]))
    by (try reflexivity; rewrite !length_app; apply Hw; cbn [List.length]; lia).
  unfold with_out_file, block_chunks. cbn [file_list file_table last_directory log_textbox].
  rewrite <- !app_assoc. reflexivity.
Qed.

(** The write that follows [j] completed ones of this block raises: the
    strings of the block up to that one were handed over, and the
    destination holds the bytes the device took. *)
Lemma write_block_sink_fails (file_path content : string) (st : State)
    (chunks : list string) (j : nat) (e : exn) :
  read_text w file_path = Ok content ->
  out_file st = Some chunks ->
  j < 3 ->
  (forall k, List.length chunks <= k < List.length chunks + j -> write_w w k = None) ->
  write_w w (List.length chunks + j) = Some e ->
  write_block w file_path st =
    (Raise e,
     with_out_file st
       (Some (take_chunks (kept_w w)
                (chunks ++ take (S j) (block_chunks file_path content))))).
Proof.
  intros Hr Ho Hj Hw He. unfold write_block.
  unfold bind at 1. rewrite (read_file_ok _ _ _ Hr).
  destruct j as [|[|[|j]]]; [| | |lia].
  - unfold bind at 1. rewrite Nat.add_0_r in He.
    rewrite (f_write_fails _ st chunks e Ho He). reflexivity.
  - unfold bind at 1. rewrite (f_write_ok _ st chunks Ho) by (apply Hw; lia).
    unfold bind at 1.
    rewrite (f_write_fails _ _
               (chunks ++ [seperator +:+ file_path +:+ newline +:+ seperator]) e)
      by (try reflexivity; rewrite length_app; exact He).
    unfold with_out_file, block_chunks.
    cbn [file_list file_table last_directory log_textbox take].
    rewrite <- !app_assoc. reflexivity.
  - unfold bind at 1. rewrite (f_write_ok _ st chunks Ho) by (apply Hw; lia).
    unfold bind at 1.
    rewrite (f_write_ok _ _ (chunks ++ [seperator +:+ file_path +:+ newline +:+ seperator]))
      by (try reflexivity; rewrite length_app; apply Hw; cbn [List.length]; lia).
    rewrite (f_write_fails _ _
               ((chunks ++ [seperator +:+ file_path +:+ newline +:+ seperator])
                  ++ [content]) e)
      by (try reflexivity; rewrite !length_app; cbn [List.length];
          rewrite <- Nat.add_assoc; exact He).
    unfold with_out_file, block_chunks.
    cbn [file_list file_table last_directory log_textbox take].
    rewrite <- !app_assoc. reflexivity.
Qed.

(** A read that fails with an exception [read_file] catches: the header is
    written, then [f.write(None)] raises. *)
Lemma write_block_read_fails (file_path : string) (e : exn) (st : State)
    (chunks : list string) :
  read_text w file_path = Raise e -> is_OSError e = true ->
  out_file st = Some chunks ->
  write_w w (List.length chunks) = None ->
  write_block w file_path st =
    (Raise TypeError,
     with_out_file (with_log st [read_error_line e file_path])
       (Some (chunks ++ [seperator +:+ file_path +:+ newline +:+ seperator]))).
Proof.
  intros Hr He Ho Hw. unfold write_block.
  unfold bind at 1. rewrite (read_file_caught _ _ _ Hr He).
  unfold bind at 1.
  rewrite (f_write_ok _ _ chunks) by (try exact Ho; exact Hw).
  unfold bind at 1. rewrite f_write_None. reflexivity.
Qed.

End Combine.

(** ** Runs of the loop and of the [try] statement *)

Section CombineRuns.

Variable w : World.

Lemma for_each_app {A} (l1 l2 : list A) (body : A -> M unit) (st : State) :
  for_each (l1 ++ l2) body st = (for_each l1 body ;; for_each l2 body) st.
Proof.
  revert st. induction l1 as [|x l1 IH]; intros st.
  - reflexivity.
  - cbn [app for_each]. unfold bind in *.
    destruct (body x st) as [[[]|e] st1]; [|reflexivity].
    apply IH.
Qed.

Lemma blocks_chunks_length (contents : string -> string) (l : list string) :
  List.length (blocks_chunks contents l) = 3 * List.length l.
Proof.
  induction l as [|p l IH]; [reflexivity|].
  unfold blocks_chunks in *. cbn [flat_map]. rewrite length_app, IH.
  cbn [block_chunks List.length]. lia.
Qed.

Lemma for_each_write_block_ok (contents : string -> string) (l : list string) :
  forall (st : State) (chunks : list string),
    (forall p, p ∈ l -> read_text w p = Ok (contents p)) ->
    out_file st = Some chunks ->
    (forall k, List.length chunks <= k < List.length chunks + 3 * List.length l ->
               write_w w k = None) ->
    for_each l (write_block w) st =
      (Ok tt, with_out_file st (Some (chunks ++ blocks_chunks contents l))).
Proof.
  induction l as [|p l IH]; intros st chunks Hr Ho Hw.
  - cbn [for_each]. unfold ret, blocks_chunks. cbn [flat_map].
    rewrite app_nil_r. unfold with_out_file. rewrite <- Ho. destruct st; reflexivity.
  - cbn [for_each]. unfold bind.
    rewrite (write_block_ok w p (contents p) st chunks);
      [|apply Hr; left|exact Ho|intros k Hk; apply Hw; cbn [List.length]; lia].
    rewrite (IH _ (chunks ++ block_chunks p (contents p)));
      [|intros q Hq; apply Hr; right; exact Hq|reflexivity|].
    + unfold blocks_chunks. cbn [flat_map]. rewrite <- app_assoc. reflexivity.
    + intros k Hk. apply Hw. rewrite length_app in Hk.
      cbn [block_chunks List.length] in *. lia.
Qed.

Lemma for_each_write_block_sink_fails (contents : string -> string)
    (pre post : list string) (p : string) (st : State) (j : nat) (e : exn) :
  (forall q, q ∈ pre ++ [p] -> read_text w q = Ok (contents q)) ->
  out_file st = Some [] ->
  j < 3 ->
  (forall k, k < 3 * List.length pre + j -> write_w w k = None) ->
  write_w w (3 * List.length pre + j) = Some e ->
  for_each (pre ++ p :: post) (write_block w) st =
    (Raise e,
     with_out_file st
       (Some (take_chunks (kept_w w)
                (blocks_chunks contents pre ++ take (S j) (block_chunks p (contents p)))))).
Proof.
  intros Hr Ho Hj Hw He.
  rewrite for_each_app. unfold bind at 1.
  rewrite (for_each_write_block_ok contents pre st []);
    [|intros q Hq; apply Hr; apply elem_of_app; left; exact Hq|exact Ho
     |intros k Hk; apply Hw; cbn [List.length] in Hk; lia].
  cbn [app for_each]. unfold bind at 1.
  rewrite (write_block_sink_fails w p (contents p) _ (blocks_chunks contents pre) j e);
    [reflexivity| |reflexivity|exact Hj| |].
  - apply Hr. apply elem_of_app. right. left.
  - intros k Hk. apply Hw. rewrite blocks_chunks_length in Hk. lia.
  - rewrite blocks_chunks_length. exact He.
Qed.

Lemma for_each_write_block_read_fails (contents : string -> string)
    (pre post : list string) (p : string) (st : State) (e : exn) :
  (forall q, q ∈ pre -> read_text w q = Ok (contents q)) ->
  read_text w p = Raise e -> is_OSError e = true ->
  out_file st = Some [] ->
  (forall k, k <= 3 * List.length pre -> write_w w k = None) ->
  for_each (pre ++ p :: post) (write_block w) st =
    (Raise TypeError,
     with_out_file (with_log st [read_error_line e p])
       (Some (blocks_chunks contents pre
                ++ [seperator +:+ p +:+ newline +:+ seperator]))).
Proof.
  intros Hr Hp He Ho Hw.
  rewrite for_each_app. unfold bind at 1.
  rewrite (for_each_write_block_ok contents pre st []);
    [|exact Hr|exact Ho|intros k Hk; apply Hw; cbn [List.length] in Hk; lia].
  cbn [app for_each]. unfold bind at 1.
  rewrite (write_block_read_fails w p e _ (blocks_chunks contents pre));
    [reflexivity|exact Hp|exact He|reflexivity|].
  apply Hw. rewrite blocks_chunks_length. lia.
Qed.

End CombineRuns.

(** ** The first bytes of a text *)

Lemma take_bytes_empty (n : nat) : take_bytes n EmptyString = EmptyString.
Proof. destruct n; reflexivity. Qed.

Lemma take_bytes_append (a b : string) :
  forall n,
    take_bytes n (a +:+ b) = take_bytes n a +:+ take_bytes (n - String.length a) b.
Proof.
  induction a as [|c a IH]; intros n.
  - rewrite take_bytes_empty. cbn [String.length]. rewrite Nat.sub_0_r. reflexivity.
  - change (String c a +:+ b) with (String c (a +:+ b)).
    destruct n as [|n]; [reflexivity|].
    cbn [take_bytes String.length Nat.sub]. rewrite IH. reflexivity.
Qed.

Lemma take_bytes_length (s : string) :
  forall n, String.length (take_bytes n s) = Nat.min n (String.length s).
Proof.
  induction s as [|c s IH]; intros [|n]; try reflexivity.
  cbn [take_bytes String.length Nat.min]. rewrite IH. reflexivity.
Qed.

Lemma take_bytes_idem (s : string) :
  forall n, take_bytes n (take_bytes n s) = take_bytes n s.
Proof.
  induction s as [|c s IH]; intros [|n]; try reflexivity.
  cbn [take_bytes]. rewrite IH. reflexivity.
Qed.

(** Cutting twice at the same byte is cutting once. *)
Lemma take_chunks_idem (chunks : list string) :
  forall n, take_chunks n (take_chunks n chunks) = take_chunks n chunks.
Proof.
  induction chunks as [|s chunks IH]; intros n; [reflexivity|].
  cbn [take_chunks]. rewrite take_bytes_idem, take_bytes_length.
  replace (n - Nat.min n (String.length s)) with (n - String.length s) by lia.
  rewrite IH. reflexivity.
Qed.

(** The text of the cut strings is the cut text. *)
Lemma written_text_take_chunks (chunks : list string) :
  forall n, written_text (take_chunks n chunks) = take_bytes n (written_text chunks).
Proof.
  induction chunks as [|s chunks IH]; intros n.
  - rewrite take_bytes_empty. reflexivity.
  - cbn [take_chunks].
    change (take_bytes n s +:+ written_text (take_chunks (n - String.length s) chunks)
            = take_bytes n (s +:+ written_text chunks)).
    rewrite IH, take_bytes_append. reflexivity.
Qed.

Lemma take_bytes_prefix (s : string) : forall n, text_prefix (take_bytes n s) s.
Proof.
  induction s as [|c s IH]; intros n.
  - exists EmptyString. rewrite take_bytes_empty. reflexivity.
  - destruct n as [|n]; [exists (String c s); reflexivity|].
    destruct (IH n) as [rest Hrest]. exists rest.
    cbn [take_bytes].
    change (String c s = String c (take_bytes n s +:+ rest)).
    rewrite <- Hrest. reflexivity.
Qed.

Section SaveCombined.

Variable w : World.

Lemma with_open_w_run (path : string) (body : M unit) (st : State) :
  open_w w path = None -> close_w w = None ->
  with_open_w w path body st = body (with_out_file st (Some [])).
Proof.
  intros Ho Hc. unfold with_open_w, bind. rewrite Ho, Hc.
  cbn [set_out_file]. fold (with_out_file st (Some [])).
  destruct (body (with_out_file st (Some []))) as [r st']. reflexivity.
Qed.

Lemma with_open_w_close_fails (path : string) (body : M unit) (st st' : State)
    (r : result unit) (e : exn) :
  open_w w path = None -> close_w w = Some e ->
  body (with_out_file st (Some [])) = (r, st') ->
  with_open_w w path body st =
    (Raise e,
     with_out_file st' (option_map (take_chunks (kept_w w)) (out_file st'))).
Proof.
  intros Ho Hc Hb. unfold with_open_w, bind. rewrite Ho, Hc.
  cbn [set_out_file]. fold (with_out_file st (Some [])).
  rewrite Hb. reflexivity.
Qed.

Lemma with_open_w_refused (path : string) (body : M unit) (st : State) (e : exn) :
  open_w w path = Some e -> with_open_w w path body st = (Raise e, st).
Proof. intros Ho. unfold with_open_w. rewrite Ho. reflexivity. Qed.

Lemma combine_files_dialog (st : State) :
  getSaveFileName w (offered_path w st) <> EmptyString ->
  combine_files w st =
    save_combined w (getSaveFileName w (offered_path w st))
      (with_directory st (rsplit_head (getSaveFileName w (offered_path w st)))).
Proof.
  intros Hs. unfold combine_files, bind, get.
  destruct (getSaveFileName w (offered_path w st)); [contradiction|reflexivity].
Qed.

Lemma combine_files_cancelled (st : State) :
  getSaveFileName w (offered_path w st) = EmptyString ->
  combine_files w st = (Ok tt, st).
Proof. intros Hs. unfold combine_files, bind, get. rewrite Hs. reflexivity. Qed.

Lemma save_combined_ok (contents : string -> string) (save_file : string) (st : State) :
  (forall p, p ∈ file_list st -> read_text w p = Ok (contents p)) ->
  open_w w save_file = None ->
  (forall k, k < 3 * List.length (file_list st) -> write_w w k = None) ->
  close_w w = None ->
  save_combined w save_file st =
    (Ok tt,
     with_log (with_out_file st (Some (blocks_chunks contents (file_list st))))
       ["Files combined successfully."; "Combined file saved as: " +:+ save_file]).
Proof.
  intros Hr Ho Hw Hc. unfold save_combined, try_except.
  unfold bind at 1. rewrite (with_open_w_run _ _ _ Ho Hc).
  unfold bind at 1. unfold get. cbn [with_out_file file_list].
  unfold bind at 1.
  rewrite (for_each_write_block_ok w contents (file_list st) _ []);
    [|exact Hr|reflexivity|intros k Hk; apply Hw; cbn [List.length] in Hk; lia].
  unfold log_append, with_log, with_out_file.
  cbn [file_list file_table last_directory log_textbox out_file app].
  rewrite <- app_assoc. reflexivity.
Qed.

Lemma save_combined_open_fails (save_file : string) (st : State) (e : exn) :
  open_w w save_file = Some e -> is_OSError e = true ->
  save_combined w save_file st =
    (Ok tt, with_log st [save_error_line e save_file]).
Proof.
  intros Ho He. unfold save_combined, try_except.
  unfold bind at 1. rewrite (with_open_w_refused _ _ _ _ Ho).
  destruct e; try discriminate He; reflexivity.
Qed.

(** A write raises: whether the close then succeeds or raises too, the
    error that leaves the [with] statement is caught and logged. *)
Lemma save_combined_write_fails (contents : string -> string) (save_file : string)
    (st : State) (pre post : list string) (p : string) (j : nat) (e : exn) :
  file_list st = pre ++ p :: post ->
  (forall q, q ∈ pre ++ [p] -> read_text w q = Ok (contents q)) ->
  open_w w save_file = None ->
  j < 3 ->
  (forall k, k < 3 * List.length pre + j -> write_w w k = None) ->
  write_w w (3 * List.length pre + j) = Some e ->
  is_OSError (leaving_exn w e) = true ->
  save_combined w save_file st =
    (Ok tt,
     with_log
       (with_out_file st
          (Some (take_chunks (kept_w w)
                   (blocks_chunks contents pre
                      ++ take (S j) (block_chunks p (contents p))))))
       [save_error_line (leaving_exn w e) save_file]).
Proof.
  intros Hl Hr Ho Hj Hw Hwe He. unfold save_combined, try_except.
  unfold leaving_exn in *. unfold bind at 1.
  destruct (close_w w) as [e'|] eqn:Hc.
  - erewrite with_open_w_close_fails; [|exact Ho|exact Hc|].
    2:{ unfold bind at 1. unfold get. cbn [with_out_file file_list].
        unfold bind at 1. rewrite Hl.
        rewrite (for_each_write_block_sink_fails w contents pre post p _ j e);
          [|exact Hr|reflexivity|exact Hj|exact Hw|exact Hwe].
        reflexivity. }
    cbn [with_out_file out_file option_map].
    rewrite take_chunks_idem.
    destruct e'; try discriminate He; reflexivity.
  - rewrite (with_open_w_run _ _ _ Ho Hc).
    unfold bind at 1. unfold get. cbn [with_out_file file_list].
    unfold bind at 1. rewrite Hl.
    rewrite (for_each_write_block_sink_fails w contents pre post p _ j e);
      [|exact Hr|reflexivity|exact Hj|exact Hw|exact Hwe].
    destruct e; try discriminate He; reflexivity.
Qed.

(** Every write returns and the close raises. *)
Lemma save_combined_close_fails (contents : string -> string) (save_file : string)
    (st : State) (e : exn) :
  (forall p, p ∈ file_list st -> read_text w p = Ok (contents p)) ->
  open_w w save_file = None ->
  (forall k, k < 3 * List.length (file_list st) -> write_w w k = None) ->
  close_w w = Some e ->
  is_OSError e = true ->
  save_combined w save_file st =
    (Ok tt,
     with_log
       (with_out_file st
          (Some (take_chunks (kept_w w) (blocks_chunks contents (file_list st)))))
       ["Files combined successfully."; save_error_line e save_file]).
Proof.
  intros Hr Ho Hw Hc He. unfold save_combined, try_except.
  unfold bind at 1.
  erewrite with_open_w_close_fails; [|exact Ho|exact Hc|].
  2:{ unfold bind at 1. unfold get. cbn [with_out_file file_list].
      unfold bind at 1.
      rewrite (for_each_write_block_ok w contents (file_list st) _ []);
        [|exact Hr|reflexivity|intros k Hk; apply Hw; cbn [List.length] in Hk; lia].
      reflexivity. }
  cbn [log_append with_out_file out_file option_map app].
  destruct e; try discriminate He;
    unfold log_append, with_log, with_out_file;
    cbn [file_list file_table last_directory log_textbox out_file save_error_line];
    rewrite <- app_assoc; reflexivity.
Qed.

Lemma save_combined_read_fails (contents : string -> string) (save_file : string)
    (st : State) (pre post : list string) (p : string) (e : exn) :
  file_list st = pre ++ p :: post ->
  (forall q, q ∈ pre -> read_text w q = Ok (contents q)) ->
  read_text w p = Raise e -> is_OSError e = true ->
  open_w w save_file = None ->
  (forall k, k <= 3 * List.length pre -> write_w w k = None) ->
  close_w w = None ->
  save_combined w save_file st =
    (Raise TypeError,
     with_out_file (with_log st [read_error_line e p])
       (Some (blocks_chunks contents pre
                ++ [seperator +:+ p +:+ newline +:+ seperator]))).
Proof.
  intros Hl Hr Hp He Ho Hw Hc. unfold save_combined, try_except.
  unfold bind at 1. rewrite (with_open_w_run _ _ _ Ho Hc).
  unfold bind at 1. unfold get. cbn [with_out_file file_list].
  unfold bind at 1. rewrite Hl.
  rewrite (for_each_write_block_read_fails w contents pre post p _ e);
    [reflexivity|exact Hr|exact Hp|exact He|reflexivity|exact Hw].
Qed.

End SaveCombined.

(** ** The text of the destination *)

Lemma append_assoc_s (a b c : string) : (a +:+ b) +:+ c = a +:+ (b +:+ c).
Proof.
  induction a as [|x a IH]; [reflexivity|].
  change (String x ((a +:+ b) +:+ c) = String x (a +:+ (b +:+ c))).
  rewrite IH. reflexivity.
Qed.

Lemma append_empty_r (a : string) : a +:+ EmptyString = a.
Proof.
  induction a as [|x a IH]; [reflexivity|].
  change (String x (a +:+ EmptyString) = String x a).
  rewrite IH. reflexivity.
Qed.

Lemma written_text_app (a b : list string) :
  written_text (a ++ b) = written_text a +:+ written_text b.
Proof.
  induction a as [|x a IH]; [reflexivity|].
  change (x +:+ written_text (a ++ b) = (x +:+ written_text a) +:+ written_text b).
  rewrite IH, append_assoc_s. reflexivity.
Qed.

Lemma seperator_is_72_asterisks : seperator = separator_line 72.
Proof. reflexivity. Qed.

Lemma written_text_block_chunks (file_path content : string) :
  written_text (block_chunks file_path content) = spec_block file_path content.
Proof.
  unfold written_text, block_chunks, spec_block. cbn [foldr].
  rewrite <- seperator_is_72_asterisks.
  rewrite append_empty_r, !append_assoc_s. reflexivity.
Qed.

Lemma written_text_blocks_chunks (contents : string -> string) (l : list string) :
  written_text (blocks_chunks contents l) =
  written_text (map (fun p => spec_block p (contents p)) l).
Proof.
  induction l as [|p l IH]; [reflexivity|].
  unfold blocks_chunks in *. cbn [flat_map map].
  rewrite written_text_app, written_text_block_chunks, IH. reflexivity.
Qed.

(** ** [combine_files] when everything succeeds *)

(** C2.  When the dialog gives a destination, every listed file reads
    successfully ([contents p] being what the read of [p] gives) and the
    destination opens, takes every write and closes, [combine_files]
    returns normally and the text written to the destination is, for each
    path in list order, a line of 72 asterisks and a line break, the path
    and a line break, the same separator line, the content, and two line
    breaks, with nothing before, between or after these blocks. *)
Theorem combine_files_writes_blocks (w : World) (st : State)
    (contents : string -> string)
    (Hsave : getSaveFileName w (offered_path w st) <> EmptyString)
    (Hread : forall p, p ∈ file_list st -> read_text w p = Ok (contents p))
    (Hopen : open_w w (getSaveFileName w (offered_path w st)) = None)
    (Hwrite : forall k, k < 3 * List.length (file_list st) -> write_w w k = None)
    (Hclose : close_w w = None) :
  exists st' chunks,
    combine_files w st = (Ok tt, st') /\
    out_file st' = Some chunks /\
    written_text chunks =
      written_text (map (fun p => spec_block p (contents p)) (file_list st)).
Proof.
  rewrite (combine_files_dialog w st Hsave).
  rewrite (save_combined_ok w contents); try assumption.
  eexists. eexists. split; [reflexivity|]. split; [reflexivity|].
  apply written_text_blocks_chunks.
Qed.

Lemma combine_files_writes_blocks_witness :
  exists st' chunks,
    combine_files (example_world (fun p => Ok (contents_a_b p)) None (fun _ => None))
      (state_of_list ["/tmp/a.txt"; "/tmp/b.txt"]) = (Ok tt, st') /\
    out_file st' = Some chunks /\
    written_text chunks =
      written_text [spec_block "/tmp/a.txt" "hello"; spec_block "/tmp/b.txt" "world"].
Proof.
  apply (combine_files_writes_blocks
           (example_world (fun p => Ok (contents_a_b p)) None (fun _ => None))
           (state_of_list ["/tmp/a.txt"; "/tmp/b.txt"]) contents_a_b).
  - simpl. discriminate.
  - reflexivity.
  - reflexivity.
  - reflexivity.
  - reflexivity.
Defined.

(** C8.  For a list with the single path [X] whose read gives [content]
    (in particular the two lines [foo] and [bar]), and a destination that
    opens, takes the three writes and closes, the second of the three
    strings written is [content] itself, and the text of the destination is
    the header of [X], then [content] unchanged, then two line breaks. *)
Theorem combine_files_copies_content (w : World) (st : State) (X content : string)
    (Hlist : file_list st = [X])
    (Hread : read_text w X = Ok content)
    (Hsave : getSaveFileName w (offered_path w st) <> EmptyString)
    (Hopen : open_w w (getSaveFileName w (offered_path w st)) = None)
    (Hwrite : forall k, k < 3 -> write_w w k = None)
    (Hclose : close_w w = None) :
  exists st',
    combine_files w st = (Ok tt, st') /\
    out_file st' =
      Some [seperator +:+ X +:+ newline +:+ seperator; content; newline +:+ newline] /\
    written_text [seperator +:+ X +:+ newline +:+ seperator; content; newline +:+ newline] =
      (separator_line 72 +:+ (X +:+ newline) +:+ separator_line 72)
      +:+ content +:+ (newline +:+ newline).
Proof.
  rewrite (combine_files_dialog w st Hsave).
  rewrite (save_combined_ok w (fun _ => content)).
  - cbn [with_directory file_list]. rewrite Hlist.
    eexists. split; [reflexivity|]. split; [reflexivity|].
    change (written_text (block_chunks X content) =
            (separator_line 72 +:+ (X +:+ newline) +:+ separator_line 72)
              +:+ content +:+ (newline +:+ newline)).
    rewrite written_text_block_chunks. unfold spec_block.
    rewrite !append_assoc_s. reflexivity.
  - cbn [with_directory file_list]. rewrite Hlist.
    intros p Hp. apply list_elem_of_singleton in Hp. subst. exact Hread.
  - exact Hopen.
  - cbn [with_directory file_list]. rewrite Hlist. exact Hwrite.
  - exact Hclose.
Qed.

Lemma combine_files_copies_content_witness :
  exists st',
    combine_files (example_world (fun _ => Ok foo_bar) None (fun _ => None))
      (state_of_list ["/tmp/x.txt"]) = (Ok tt, st') /\
    out_file st' =
      Some [seperator +:+ "/tmp/x.txt" +:+ newline +:+ seperator; foo_bar;
            newline +:+ newline] /\
    written_text [seperator +:+ "/tmp/x.txt" +:+ newline +:+ seperator; foo_bar;
                  newline +:+ newline] =
      (separator_line 72 +:+ ("/tmp/x.txt" +:+ newline) +:+ separator_line 72)
      +:+ foo_bar +:+ (newline +:+ newline).
Proof.
  apply (combine_files_copies_content
           (example_world (fun _ => Ok foo_bar) None (fun _ => None))
           (state_of_list ["/tmp/x.txt"]) "/tmp/x.txt" foo_bar).
  - reflexivity.
  - reflexivity.
  - simpl. discriminate.
  - reflexivity.
  - reflexivity.
  - reflexivity.
Defined.

(** ** [combine_files] on the empty list *)

(** C7.  On an empty file list, whatever the dialog, the destination and
    the clock do, [combine_files] writes nothing: when the dialog gives a
    destination and it opens, the destination is left created and empty (no
    write was made, so no separator, path line or content); otherwise it is
    left as it was. *)
Theorem combine_files_empty_list (w : World) (st : State)
    (Hempty : file_list st = []) :
  out_file (snd (combine_files w st)) =
    match getSaveFileName w (offered_path w st),
          open_w w (getSaveFileName w (offered_path w st)) with
    | String _ _, None => Some []
    | _, _ => out_file st
    end.
Proof.
  destruct (getSaveFileName w (offered_path w st)) as [|c s] eqn:Hs.
  - rewrite combine_files_cancelled by exact Hs. reflexivity.
  - rewrite combine_files_dialog by (rewrite Hs; discriminate).
    rewrite Hs. unfold save_combined, try_except, with_open_w.
    unfold bind at 1.
    destruct (open_w w (String c s)) as [e|].
    + destruct e; reflexivity.
    + unfold bind, get, set_out_file. cbn [file_list with_directory].
      rewrite Hempty. cbn [for_each ret log_append].
      destruct (close_w w) as [e|]; [destruct e|]; reflexivity.
Qed.

Lemma combine_files_empty_list_witness :
  out_file (snd (combine_files (example_world reads_a_only None (fun _ => None))
                   (init ""))) = Some [].
Proof.
  apply (combine_files_empty_list
           (example_world reads_a_only None (fun _ => None)) (init "")).
  reflexivity.
Defined.

(** ** [combine_files] when the destination fails *)

(** C6.  Let the dialog give a destination and let [e] be an [OSError].
    When opening the destination raises [e], [combine_files] returns
    normally, logs exactly one line, the report of [e], and leaves the
    destination as it was.  When the destination opens, the files before
    and including [p] read successfully, and the write that follows
    [3 * |pre| + j] completed ones raises [e], [combine_files] returns
    normally and logs exactly one line, the report of the error (of the
    close, when the close raises too); no success line is logged, nothing
    is handed to [f.write] for the rest of [p] or for the paths after it,
    and the destination holds the bytes the device took, the first
    [kept_w] bytes of what was handed over up to the raising write.  When
    every write returns and the failure of the device shows at the close
    ([e] is raised there, as happens for a short output), [combine_files]
    returns normally, having logged ["Files combined successfully."] inside
    the [with] block and then, once, the report of [e]; the destination
    again holds the first [kept_w] bytes.  Nothing is cleaned up in any of
    these cases. *)
Theorem combine_files_sink_failure (w : World) (st : State) (e : exn)
    (Hsave : getSaveFileName w (offered_path w st) <> EmptyString)
    (He : is_OSError e = true) :
  let save_file := getSaveFileName w (offered_path w st) in
  (open_w w save_file = Some e ->
     combine_files w st =
       (Ok tt, combined_state st save_file [save_error_line e save_file] (out_file st))) /\
  (forall (contents : string -> string) (pre post : list string) (p : string) (j : nat),
     file_list st = pre ++ p :: post ->
     (forall q, q ∈ pre ++ [p] -> read_text w q = Ok (contents q)) ->
     open_w w save_file = None ->
     j < 3 ->
     (forall k, k < 3 * List.length pre + j -> write_w w k = None) ->
     write_w w (3 * List.length pre + j) = Some e ->
     is_OSError (leaving_exn w e) = true ->
     combine_files w st =
       (Ok tt,
        combined_state st save_file [save_error_line (leaving_exn w e) save_file]
          (Some (take_chunks (kept_w w)
                   (blocks_chunks contents pre
                      ++ take (S j) (block_chunks p (contents p))))))) /\
  (forall (contents : string -> string),
     (forall q, q ∈ file_list st -> read_text w q = Ok (contents q)) ->
     open_w w save_file = None ->
     (forall k, k < 3 * List.length (file_list st) -> write_w w k = None) ->
     close_w w = Some e ->
     combine_files w st =
       (Ok tt,
        combined_state st save_file
          ["Files combined successfully."; save_error_line e save_file]
          (Some (take_chunks (kept_w w) (blocks_chunks contents (file_list st)))))) /\
  (forall chunks,
     written_text (take_chunks (kept_w w) chunks) =
       take_bytes (kept_w w) (written_text chunks)) /\
  (forall e', is_OSError e' = true ->
     is_save_error_line (save_error_line e' save_file) = true) /\
  is_save_error_line "Files combined successfully." = false.
Proof.
  cbn zeta. split; [|split; [|split; [|split; [|split]]]].
  - intros Ho. rewrite (combine_files_dialog w st Hsave).
    rewrite (save_combined_open_fails w _ _ e Ho He). reflexivity.
  - intros contents pre post p j Hl Hr Ho Hj Hw Hwe Hleave.
    rewrite (combine_files_dialog w st Hsave).
    rewrite (save_combined_write_fails w contents _ _ pre post p j e);
      try assumption; reflexivity.
  - intros contents Hr Ho Hw Hc.
    rewrite (combine_files_dialog w st Hsave).
    rewrite (save_combined_close_fails w contents _ _ e);
      try assumption; reflexivity.
  - intros chunks. apply written_text_take_chunks.
  - intros e' He'. destruct e'; try discriminate He'; reflexivity.
  - reflexivity.
Qed.

Lemma combine_files_sink_failure_witness :
  combine_files
    (example_world (fun p => Ok (contents_a_b p)) (Some PermissionError) (fun _ => None))
    (state_of_list ["/tmp/a.txt"; "/tmp/b.txt"])
  = (Ok tt,
     mkState ["/tmp/a.txt"; "/tmp/b.txt"]
       (populated ["/tmp/a.txt"; "/tmp/b.txt"]) "/tmp"
       ["Permission denied for destination file: /tmp/out.txt"] None)
  /\
  combine_files
    (full_device_world (fun _ => Ok (xs 20000)) (full_after 1) true 10000)
    (state_of_list ["/tmp/a.txt"])
  = (Ok tt,
     mkState ["/tmp/a.txt"] (populated ["/tmp/a.txt"]) "/tmp"
       ["Error saving combined file: [Errno 28] No space left on device"]
       (Some [seperator +:+ "/tmp/a.txt" +:+ newline +:+ seperator; xs 9843]))
  /\
  combine_files
    (full_device_world (fun p => Ok (contents_a_b p)) (fun _ => None) false 200)
    (state_of_list ["/tmp/a.txt"; "/tmp/b.txt"])
  = (Ok tt,
     mkState ["/tmp/a.txt"; "/tmp/b.txt"]
       (populated ["/tmp/a.txt"; "/tmp/b.txt"]) "/tmp"
       ["Files combined successfully.";
        "Error saving combined file: [Errno 28] No space left on device"]
       (Some [seperator +:+ "/tmp/a.txt" +:+ newline +:+ seperator; "hello";
              newline +:+ newline;
              "************************************"; ""; ""])).
Proof.
  split; [|split].
  - destruct (combine_files_sink_failure
                (example_world (fun p => Ok (contents_a_b p)) (Some PermissionError)
                   (fun _ => None))
                (state_of_list ["/tmp/a.txt"; "/tmp/b.txt"]) PermissionError)
      as (H & _); [simpl; discriminate|reflexivity|].
    apply H. reflexivity.
  - destruct (combine_files_sink_failure
                (full_device_world (fun _ => Ok (xs 20000)) (full_after 1) true 10000)
                (state_of_list ["/tmp/a.txt"]) no_space)
      as (_ & H & _); [simpl; discriminate|reflexivity|].
    rewrite (H (fun _ => xs 20000) [] [] "/tmp/a.txt" 1).
    + vm_compute. reflexivity.
    + reflexivity.
    + reflexivity.
    + reflexivity.
    + lia.
    + intros k Hk. simpl in Hk. replace k with 0 by lia. reflexivity.
    + reflexivity.
    + reflexivity.
  - destruct (combine_files_sink_failure
                (full_device_world (fun p => Ok (contents_a_b p)) (fun _ => None) false 200)
                (state_of_list ["/tmp/a.txt"; "/tmp/b.txt"]) no_space)
      as (_ & _ & H & _); [simpl; discriminate|reflexivity|].
    rewrite (H contents_a_b).
    + vm_compute. reflexivity.
    + reflexivity.
    + reflexivity.
    + reflexivity.
    + reflexivity.
Defined.

(** ** [combine_files] when a source file is missing *)

(** C1.  The list is ["/tmp/a.txt"; "/tmp/b.txt"], the first file holds
    [hello], the second does not exist, and the destination takes every
    write.  [read_file] logs the missing file and returns [None]; the block
    of the first file and the header of the second are written; then
    [f.write(None)] raises [TypeError], which no handler of [combine_files]
    catches: the run ends by that exception, the two line breaks of the
    second block are never written, and neither success line is logged. *)
Theorem combine_files_missing_file_raises :
  combine_files (example_world reads_a_only None (fun _ => None))
    (state_of_list ["/tmp/a.txt"; "/tmp/b.txt"])
  = (Raise TypeError,
     mkState ["/tmp/a.txt"; "/tmp/b.txt"]
       (populated ["/tmp/a.txt"; "/tmp/b.txt"]) "/tmp"
       ["File not found: /tmp/b.txt"]
       (Some [seperator +:+ "/tmp/a.txt" +:+ newline +:+ seperator; "hello";
              newline +:+ newline;
              seperator +:+ "/tmp/b.txt" +:+ newline +:+ seperator])).
Proof. vm_compute. reflexivity. Qed.

(** The same run with the missing file first: the file that exists is
    never read and its block is never written. *)
Lemma combine_files_stops_at_missing_file :
  combine_files (example_world reads_a_only None (fun _ => None))
    (state_of_list ["/tmp/b.txt"; "/tmp/a.txt"])
  = (Raise TypeError,
     mkState ["/tmp/b.txt"; "/tmp/a.txt"]
       (populated ["/tmp/b.txt"; "/tmp/a.txt"]) "/tmp"
       ["File not found: /tmp/b.txt"]
       (Some [seperator +:+ "/tmp/b.txt" +:+ newline +:+ seperator])).
Proof. vm_compute. reflexivity. Qed.

(** In general: when the read of a listed file fails with an exception
    [read_file] catches, and the destination takes the writes up to the
    header of that file, [combine_files] ends by [TypeError] right after
    that header; the files after it are neither read nor written. *)
Lemma combine_files_read_failure_raises (w : World) (st : State)
    (contents : string -> string) (pre post : list string) (p : string) (e : exn) :
  getSaveFileName w (offered_path w st) <> EmptyString ->
  file_list st = pre ++ p :: post ->
  (forall q, q ∈ pre -> read_text w q = Ok (contents q)) ->
  read_text w p = Raise e -> is_OSError e = true ->
  open_w w (getSaveFileName w (offered_path w st)) = None ->
  (forall k, k <= 3 * List.length pre -> write_w w k = None) ->
  close_w w = None ->
  combine_files w st =
    (Raise TypeError,
     combined_state st (getSaveFileName w (offered_path w st))
       [read_error_line e p]
       (Some (blocks_chunks contents pre
                ++ [seperator +:+ p +:+ newline +:+ seperator]))).
Proof.
  intros Hsave Hl Hr Hp He Ho Hw Hc.
  rewrite (combine_files_dialog w st Hsave).
  rewrite (save_combined_read_fails w contents _ _ pre post p e);
    try assumption; reflexivity.
Qed.

(** ** The default file name *)

Lemma length_append_s (a b : string) :
  String.length (a +:+ b) = String.length a + String.length b.
Proof.
  induction a as [|x a IH]; [reflexivity|].
  change (S (String.length (a +:+ b)) = S (String.length a + String.length b)).
  rewrite IH. reflexivity.
Qed.

Lemma zero_pad_length (width n : nat) : String.length (zero_pad width n) = width.
Proof.
  revert n. induction width as [|width IH]; intros n; [reflexivity|].
  cbn [zero_pad]. rewrite length_append_s, IH. cbn [String.length]. lia.
Qed.

Lemma decimal_from_append (s t : string) :
  forall acc,
    decimal_from acc (s +:+ t) =
      match decimal_from acc s with
      | Some a => decimal_from a t
      | None => None
      end.
Proof.
  induction s as [|c s IH]; intros acc; [reflexivity|].
  change (String c s +:+ t) with (String c (s +:+ t)).
  cbn [decimal_from]. destruct (digit_value c); [apply IH|reflexivity].
Qed.

Lemma digit_value_digit_char (d : nat) : d < 10 -> digit_value (digit_char d) = Some d.
Proof.
  intros H. do 10 (destruct d as [|d]; [reflexivity|]). lia.
Qed.

Lemma zero_pad_decimal (width : nat) :
  forall n acc,
    decimal_from acc (zero_pad width n) = Some (acc * 10 ^ width + n mod 10 ^ width).
Proof.
  induction width as [|width IH]; intros n acc.
  - cbn [zero_pad decimal_from Nat.pow]. rewrite Nat.mod_1_r. f_equal. lia.
  - cbn [zero_pad]. rewrite decimal_from_append, IH. cbn [decimal_from].
    rewrite digit_value_digit_char by (apply Nat.mod_upper_bound; lia).
    f_equal. rewrite Nat.pow_succ_r'.
    rewrite (Nat.Div0.mod_mul_r n 10 (10 ^ width)). lia.
Qed.

Lemma zero_pad_is_decimal (width n : nat) :
  n < 10 ^ width -> is_decimal width (zero_pad width n) n.
Proof.
  intros H. split; [apply zero_pad_length|].
  rewrite zero_pad_decimal. rewrite Nat.mod_small by exact H. f_equal.
Qed.

(** C9.  For a clock showing a date with a four-digit year, the default
    file name is ["combined_"], then the year in four decimal digits, the
    month in two and the day of the month in two, then [".txt"]; and the
    path the save dialog is opened on is the last directory, a slash and
    that name. *)
Theorem default_filename_format (now : datetime)
    (Hyear : 1000 <= year now <= 9999)
    (Hmonth : 1 <= month now <= 12)
    (Hday : 1 <= day now <= 31) :
  (exists yyyy mm dd,
      default_filename now = "combined_" +:+ (yyyy +:+ mm +:+ dd) +:+ ".txt" /\
      is_decimal 4 yyyy (year now) /\
      is_decimal 2 mm (month now) /\
      is_decimal 2 dd (day now)) /\
  (forall (w : World) (st : State),
      clock w = now ->
      offered_path w st = last_directory st +:+ "/" +:+ default_filename now).
Proof.
  split.
  - exists (zero_pad 4 (year now)), (zero_pad 2 (month now)), (zero_pad 2 (day now)).
    split; [reflexivity|].
    assert (Hmax : 9999 = 9 * 1000 + 999) by reflexivity.
    split; [|split]; apply zero_pad_is_decimal; cbn [Nat.pow]; lia.
  - intros w st <-. reflexivity.
Qed.

Lemma default_filename_format_witness :
  default_filename (mkDate 2024 10 18) = "combined_20241018.txt" /\
  exists yyyy mm dd,
    default_filename (mkDate 2024 10 18)
      = "combined_" +:+ (yyyy +:+ mm +:+ dd) +:+ ".txt" /\
    is_decimal 4 yyyy 2024 /\ is_decimal 2 mm 10 /\ is_decimal 2 dd 18.
Proof.
  split; [reflexivity|].
  apply (default_filename_format (mkDate 2024 10 18)).
  - cbn [year]. split; [lia|apply Nat.leb_le; reflexivity].
  - cbn [month]. lia.
  - cbn [day]. lia.
Defined.

(** ** Paths: directory and file name *)

(** The two scans agree on whether there is a slash, and cut the string at
    the same one. *)
Lemma last_slash_cut (s : string) :
  match before_last_slash s, after_last_slash s with
  | Some d, Some n => s = d +:+ "/" +:+ n /\ has_slash n = false /\ has_slash s = true
  | None, None => has_slash s = false
  | _, _ => False
  end.
Proof.
  induction s as [|c s IH]; [reflexivity|].
  cbn [before_last_slash after_last_slash has_slash].
  destruct (before_last_slash s) as [d|], (after_last_slash s) as [n|];
    try contradiction.
  - destruct IH as (-> & Hn & Hs). split; [reflexivity|]. split; [exact Hn|].
    rewrite Hs. apply orb_true_r.
  - destruct (Ascii.eqb_spec c slash) as [->|Hc].
    + split; [reflexivity|]. split; [exact IH|reflexivity].
    + rewrite IH. reflexivity.
Qed.

(** X1.  A path with a slash is its directory ([rsplit("/", 1)[0]]), a
    slash and its file name ([split("/")[-1]]); a path without a slash is
    both its own directory and its own file name; and a file name never
    has a slash. *)
Theorem path_directory_and_filename (s : string) :
  (if has_slash s
   then rsplit_head s +:+ "/" +:+ split_last s = s
   else rsplit_head s = s /\ split_last s = s) /\
  has_slash (split_last s) = false.
Proof.
  pose proof (last_slash_cut s) as H. unfold rsplit_head, split_last.
  destruct (before_last_slash s) as [d|], (after_last_slash s) as [n|];
    try contradiction.
  - destruct H as (Hs & Hn & Hb). rewrite Hb. split; [symmetry; exact Hs|exact Hn].
  - rewrite H. split; [split; reflexivity|reflexivity].
Qed.

(** ** The table *)

Lemma populated_paths (l : list string) : map snd (populated l) = l.
Proof.
  induction l as [|p l IH]; [reflexivity|].
  cbn [populated map snd]. unfold populated in IH. rewrite IH. reflexivity.
Qed.

(** X2.  [populate_table] returns normally and rebuilds the table from the
    list: one row per listed path in list order, the path in the second
    column, and in the first column a name without a slash that is the
    path itself or what follows its last slash.  It changes nothing else. *)
Theorem populate_table_rows (st : State) :
  exists st',
    populate_table st = (Ok tt, st') /\
    map snd (file_table st') = file_list st /\
    Forall (fun row : string * string =>
              has_slash (fst row) = false /\
              (fst row = snd row \/ exists d, snd row = d +:+ "/" +:+ fst row))
           (file_table st') /\
    file_list st' = file_list st /\
    last_directory st' = last_directory st /\
    log_textbox st' = log_textbox st /\
    out_file st' = out_file st.
Proof.
  eexists. split; [reflexivity|]. cbn [file_table file_list last_directory
                                        log_textbox out_file].
  split; [apply populated_paths|]. split; [|repeat split].
  apply Forall_forall. intros row Hrow.
  apply list_elem_of_fmap in Hrow as (p & -> & _). cbn [fst snd].
  pose proof (last_slash_cut p) as H. unfold split_last.
  destruct (before_last_slash p) as [d|], (after_last_slash p) as [n|];
    try contradiction.
  - destruct H as (Hcut & Hname & _). split; [exact Hname|].
    right. exists d. exact Hcut.
  - split; [exact H|]. left. reflexivity.
Qed.

(** ** [add_files] as a whole *)

(** X3.  [add_files] returns normally.  When the dialog answers no file
    (it was cancelled) the state is left exactly as it was: nothing is
    logged and the remembered directory is kept.  Otherwise the files are
    appended in the order given, the directory of the first one is
    remembered, one line ["Added file: <path>"] per file is logged in that
    order, and the table is rebuilt from the new list. *)
Theorem add_files_run (w : World) (st : State) :
  add_files w st =
    match getOpenFileNames w (last_directory st) with
    | [] => (Ok tt, st)
    | file0 :: rest =>
        (Ok tt,
         mkState (file_list st ++ file0 :: rest)
           (populated (file_list st ++ file0 :: rest))
           (rsplit_head file0)
           (log_textbox st ++ map (fun file => "Added file: " +:+ file) (file0 :: rest))
           (out_file st))
    end.
Proof.
  unfold add_files, bind, get.
  destruct (getOpenFileNames w (last_directory st)) as [|file0 rest]; [reflexivity|].
  cbn [set_last_directory]. rewrite for_each_add_file_run. reflexivity.
Qed.

(** ** What a run leaves alone *)

Lemma only_logs_refl (st : State) : only_logs st st.
Proof. repeat split. exists []. rewrite app_nil_r. reflexivity. Qed.

Lemma only_logs_trans (st1 st2 st3 : State) :
  only_logs st1 st2 -> only_logs st2 st3 -> only_logs st1 st3.
Proof.
  intros (Hl & Ht & Hd & l1 & Hg) (Hl' & Ht' & Hd' & l2 & Hg').
  repeat split; try congruence.
  exists (l1 ++ l2). rewrite Hg', Hg, app_assoc. reflexivity.
Qed.

Lemma logs_only_ret {A} (a : A) : logs_only (ret a).
Proof. intros st. apply only_logs_refl. Qed.

Lemma logs_only_raise {A} (e : exn) : logs_only (@raise A e).
Proof. intros st. apply only_logs_refl. Qed.

Lemma logs_only_bind {A B} (c : M A) (k : A -> M B) :
  logs_only c -> (forall a, logs_only (k a)) -> logs_only (bind c k).
Proof.
  intros Hc Hk st. unfold bind. specialize (Hc st).
  destruct (c st) as [[a|e] st1]; cbn [snd] in *.
  - apply (only_logs_trans _ st1); [exact Hc|apply Hk].
  - exact Hc.
Qed.

Lemma logs_only_try_except {A} (c : M A) (h : exn -> M A) :
  logs_only c -> (forall e, logs_only (h e)) -> logs_only (try_except c h).
Proof.
  intros Hc Hh st. unfold try_except. specialize (Hc st).
  destruct (c st) as [[a|e] st1]; cbn [snd] in *.
  - exact Hc.
  - apply (only_logs_trans _ st1); [exact Hc|apply Hh].
Qed.

Lemma logs_only_log_append (line : string) : logs_only (log_append line).
Proof. intros st. repeat split. exists [line]. reflexivity. Qed.

Lemma logs_only_set_out_file (o : option (list string)) : logs_only (set_out_file o).
Proof. intros st. repeat split. exists []. cbn. rewrite app_nil_r. reflexivity. Qed.

Lemma logs_only_get : logs_only get.
Proof. intros st. apply only_logs_refl. Qed.

Lemma logs_only_cut_out_file (n : nat) : logs_only (cut_out_file n).
Proof.
  unfold cut_out_file.
  apply logs_only_bind; [apply logs_only_get|intros st0; apply logs_only_set_out_file].
Qed.

Lemma logs_only_cut_and_raise (n : nat) (e : exn) :
  logs_only (cut_out_file n ;; @raise unit e).
Proof.
  apply logs_only_bind; [apply logs_only_cut_out_file|intros _; apply logs_only_raise].
Qed.

Lemma logs_only_f_write (w : World) (x : option string) : logs_only (f_write w x).
Proof.
  intros st. unfold f_write.
  destruct x as [s|]; [|apply only_logs_refl].
  destruct (out_file st) as [chunks|]; [|apply only_logs_refl].
  destruct (write_w w (List.length chunks)) as [e|];
    [|apply logs_only_set_out_file].
  apply logs_only_bind; [apply logs_only_set_out_file|intros _].
  apply logs_only_cut_and_raise.
Qed.

Lemma logs_only_read_file (w : World) (file_path : string) :
  logs_only (read_file w file_path).
Proof.
  unfold read_file. apply logs_only_try_except.
  - destruct (read_text w file_path); [apply logs_only_ret|apply logs_only_raise].
  - intros e. destruct e; try apply logs_only_raise;
      (apply logs_only_bind; [apply logs_only_log_append|intros _; apply logs_only_ret]).
Qed.

Lemma logs_only_for_each {A} (l : list A) (body : A -> M unit) :
  (forall x, logs_only (body x)) -> logs_only (for_each l body).
Proof.
  intros Hb. induction l as [|x l IH]; cbn [for_each].
  - apply logs_only_ret.
  - apply logs_only_bind; [apply Hb|intros _; exact IH].
Qed.

Lemma logs_only_write_block (w : World) (file_path : string) :
  logs_only (write_block w file_path).
Proof.
  unfold write_block.
  apply logs_only_bind; [apply logs_only_read_file|intros content].
  apply logs_only_bind; [apply logs_only_f_write|intros _].
  apply logs_only_bind; [apply logs_only_f_write|intros _].
  apply logs_only_f_write.
Qed.

Lemma logs_only_with_open_w (w : World) (path : string) (body : M unit) :
  logs_only body -> logs_only (with_open_w w path body).
Proof.
  intros Hb st. unfold with_open_w.
  destruct (open_w w path); [apply only_logs_refl|].
  assert (H : logs_only (set_out_file (Some []) ;; body))
    by (apply logs_only_bind; [apply logs_only_set_out_file|intros _; exact Hb]).
  specialize (H st).
  destruct ((set_out_file (Some []) ;; body) st) as [r st'].
  destruct (close_w w) as [e|]; [|exact H].
  apply (only_logs_trans _ st'); [exact H|apply logs_only_cut_and_raise].
Qed.

Lemma logs_only_save_combined (w : World) (save_file : string) :
  logs_only (save_combined w save_file).
Proof.
  unfold save_combined. apply logs_only_try_except.
  - apply logs_only_bind; [|intros _; apply logs_only_log_append].
    apply logs_only_with_open_w.
    apply logs_only_bind; [apply logs_only_get|intros st0].
    apply logs_only_bind; [|intros _; apply logs_only_log_append].
    apply logs_only_for_each. intros p. apply logs_only_write_block.
  - intros e. destruct e; try apply logs_only_raise; apply logs_only_log_append.
Qed.

(** X4.  Whatever the files, the destination and the dialog do, and
    whether it returns or raises, [combine_files] leaves the file list and
    the table as they were and only adds lines to the log (what was logged
    stays, in place); it remembers the directory of the destination as
    soon as the dialog gives one, also when saving then fails, and keeps
    the old one when the dialog is cancelled. *)
Theorem combine_files_leaves_list (w : World) (st : State) :
  let st' := snd (combine_files w st) in
  file_list st' = file_list st /\
  file_table st' = file_table st /\
  (exists lines, log_textbox st' = log_textbox st ++ lines) /\
  last_directory st' =
    match getSaveFileName w (offered_path w st) with
    | EmptyString => last_directory st
    | String _ _ => rsplit_head (getSaveFileName w (offered_path w st))
    end.
Proof.
  cbn zeta.
  destruct (getSaveFileName w (offered_path w st)) as [|c s] eqn:Hs.
  - rewrite combine_files_cancelled by exact Hs. cbn [snd].
    repeat split. exists []. rewrite app_nil_r. reflexivity.
  - rewrite combine_files_dialog by (rewrite Hs; discriminate). rewrite Hs.
    destruct (logs_only_save_combined w (String c s)
                (with_directory st (rsplit_head (String c s))))
      as (Hl & Ht & Hd & Hg).
    repeat split; assumption.
Qed.

(** ** The table follows the list *)

(** X5.  No method changes the file list without rebuilding the rows of
    the table from it: whatever their inputs, and whether they return or
    raise, [add_files] and [dropEvent] either leave the file list and the
    rows alone or end with the rows [populate_table] builds from the new
    list, and [combine_files] never touches either.  (This is the state
    when the method returns; rows the toolkit moves afterwards on its own
    are not covered.) *)
Theorem table_follows_file_list (w : World) (st : State)
    (from_table : bool) (selected_row target_row : Z) :
  table_follows st (snd (add_files w st)) /\
  table_follows st (snd (dropEvent from_table selected_row target_row st)) /\
  (file_list (snd (combine_files w st)) = file_list st /\
   file_table (snd (combine_files w st)) = file_table st).
Proof.
  split; [|split].
  - unfold add_files, bind, get.
    destruct (getOpenFileNames w (last_directory st)) as [|file0 rest];
      [left; split; reflexivity|].
    cbn [set_last_directory]. rewrite for_each_add_file_run. right. reflexivity.
  - destruct from_table;
      [|rewrite dropEvent_guard_rejects by auto; left; split; reflexivity].
    destruct (Z.lt_ge_cases target_row 0) as [Hneg|Hpos];
      [rewrite dropEvent_guard_rejects by auto; left; split; reflexivity|].
    destruct (Z.eq_dec target_row selected_row) as [Heq|Hne];
      [rewrite dropEvent_guard_rejects by auto; left; split; reflexivity|].
    destruct (py_index (List.length (file_list st)) selected_row) as [i|] eqn:Hi;
      [|rewrite dropEvent_out_of_range by auto; left; split; reflexivity].
    destruct (py_index (List.length (file_list st)) target_row) as [j|] eqn:Hj;
      [|rewrite dropEvent_out_of_range by auto; left; split; reflexivity].
    destruct (dropEvent_exchanges st selected_row target_row i j Hpos Hne Hi Hj)
      as (li & lj & _ & _ & ->).
    right. reflexivity.
  - destruct (getSaveFileName w (offered_path w st)) as [|c s] eqn:Hs.
    + rewrite combine_files_cancelled by exact Hs. split; reflexivity.
    + rewrite combine_files_dialog by (rewrite Hs; discriminate). rewrite Hs.
      destruct (logs_only_save_combined w (String c s)
                  (with_directory st (rsplit_head (String c s))))
        as (Hl & Ht & _).
      split; assumption.
Qed.

(** ** The state a successful run leaves *)

(** X6.  When the dialog gives a destination, every listed file reads
    successfully and the destination opens, takes every write and closes,
    [combine_files] returns normally, remembers the directory of the
    destination, logs exactly the two lines ["Files combined
    successfully."] and ["Combined file saved as: <destination>"], in that
    order, and leaves in the destination the three strings of each block,
    in list order. *)
Theorem combine_files_success_state (w : World) (st : State)
    (contents : string -> string)
    (Hsave : getSaveFileName w (offered_path w st) <> EmptyString)
    (Hread : forall p, p ∈ file_list st -> read_text w p = Ok (contents p))
    (Hopen : open_w w (getSaveFileName w (offered_path w st)) = None)
    (Hwrite : forall k, k < 3 * List.length (file_list st) -> write_w w k = None)
    (Hclose : close_w w = None) :
  combine_files w st =
    (Ok tt,
     combined_state st (getSaveFileName w (offered_path w st))
       ["Files combined successfully.";
        "Combined file saved as: " +:+ getSaveFileName w (offered_path w st)]
       (Some (blocks_chunks contents (file_list st)))).
Proof.
  rewrite (combine_files_dialog w st Hsave).
  rewrite (save_combined_ok w contents); try assumption. reflexivity.
Qed.

Lemma combine_files_success_state_witness :
  combine_files (example_world (fun p => Ok (contents_a_b p)) None (fun _ => None))
    (state_of_list ["/tmp/a.txt"; "/tmp/b.txt"])
  = (Ok tt,
     mkState ["/tmp/a.txt"; "/tmp/b.txt"]
       (populated ["/tmp/a.txt"; "/tmp/b.txt"]) "/tmp"
       ["Files combined successfully."; "Combined file saved as: /tmp/out.txt"]
       (Some (block_chunks "/tmp/a.txt" "hello" ++ block_chunks "/tmp/b.txt" "world"))).
Proof.
  apply (combine_files_success_state
           (example_world (fun p => Ok (contents_a_b p)) None (fun _ => None))
           (state_of_list ["/tmp/a.txt"; "/tmp/b.txt"]) contents_a_b).
  - simpl. discriminate.
  - reflexivity.
  - reflexivity.
  - reflexivity.
  - reflexivity.
Defined.

(** ** A destination that fails to close *)



(** ** Reads that fail in other ways *)

Section ReadFailures.

Variable w : World.

Lemma write_block_read_uncaught (file_path : string) (e : exn) (st : State) :
  read_text w file_path = Raise e -> is_OSError e = false ->
  write_block w file_path st = (Raise e, st).
Proof.
  intros Hr He. unfold write_block. unfold bind at 1.
  rewrite (read_file_uncaught w _ _ _ Hr He). reflexivity.
Qed.

Lemma write_block_read_then_sink_fails (file_path : string) (e1 e2 : exn)
    (st : State) (chunks : list string) :
  read_text w file_path = Raise e1 -> is_OSError e1 = true ->
  out_file st = Some chunks ->
  write_w w (List.length chunks) = Some e2 ->
  write_block w file_path st =
    (Raise e2,
     with_out_file (with_log st [read_error_line e1 file_path])
       (Some (take_chunks (kept_w w)
                (chunks ++ [seperator +:+ file_path +:+ newline +:+ seperator])))).
Proof.
  intros Hr He Ho Hw. unfold write_block. unfold bind at 1.
  rewrite (read_file_caught w _ _ _ Hr He). unfold bind at 1.
  rewrite (f_write_fails w _ _ chunks e2); [reflexivity|exact Ho|exact Hw].
Qed.


(** The read of [p] fails and the write of its header raises. *)
Lemma save_combined_read_then_sink_fails (contents : string -> string)
    (save_file : string) (st : State) (pre post : list string) (p : string)
    (e1 e2 : exn) :
  file_list st = pre ++ p :: post ->
  (forall q, q ∈ pre -> read_text w q = Ok (contents q)) ->
  read_text w p = Raise e1 -> is_OSError e1 = true ->
  open_w w save_file = None ->
  (forall k, k < 3 * List.length pre -> write_w w k = None) ->
  write_w w (3 * List.length pre) = Some e2 ->
  is_OSError (leaving_exn w e2) = true ->
  save_combined w save_file st =
    (Ok tt,
     with_log
       (with_out_file st
          (Some (take_chunks (kept_w w)
                   (blocks_chunks contents pre
                      ++ [seperator +:+ p +:+ newline +:+ seperator]))))
       [read_error_line e1 p; save_error_line (leaving_exn w e2) save_file]).
Proof.
  intros Hl Hr Hp He1 Ho Hw Hwe He2.
  assert (Hbody :
    (st0 <- get ;;
     for_each (file_list st0) (write_block w) ;;
     log_append "Files combined successfully.") (with_out_file st (Some [])) =
    (Raise e2,
     with_out_file (with_log st [read_error_line e1 p])
       (Some (take_chunks (kept_w w)
                (blocks_chunks contents pre
                   ++ [seperator +:+ p +:+ newline +:+ seperator]))))).
  { unfold bind at 1. unfold get. cbn [with_out_file file_list].
    unfold bind at 1. rewrite Hl, for_each_app. unfold bind at 1.
    rewrite (for_each_write_block_ok w contents pre _ []);
      [|exact Hr|reflexivity|intros k Hk; apply Hw; cbn [List.length] in Hk; lia].
    cbn [app for_each]. unfold bind at 1.
    rewrite (write_block_read_then_sink_fails p e1 e2 _ (blocks_chunks contents pre));
      [reflexivity|exact Hp|exact He1|reflexivity
      |rewrite blocks_chunks_length; exact Hwe]. }
  unfold save_combined, try_except. unfold leaving_exn in *. unfold bind at 1.
  destruct (close_w w) as [e'|] eqn:Hc.
  - rewrite (with_open_w_close_fails w _ _ _ _ _ e' Ho Hc Hbody).
    cbn [with_out_file with_log out_file option_map].
    rewrite take_chunks_idem.
    destruct e'; try discriminate He2;
      unfold log_append, with_log, with_out_file;
      cbn [file_list file_table last_directory log_textbox out_file save_error_line];
      rewrite <- app_assoc; reflexivity.
  - rewrite (with_open_w_run w _ _ _ Ho Hc), Hbody.
    destruct e2; try discriminate He2;
      unfold log_append, with_log, with_out_file;
      cbn [file_list file_table last_directory log_textbox out_file save_error_line];
      rewrite <- app_assoc; reflexivity.
Qed.

(** The read of [p] fails, the write of its header returns, [f.write(None)]
    raises [TypeError], and the close raises: the error of the close
    replaces the [TypeError] and is caught. *)
Lemma save_combined_read_then_close_fails (contents : string -> string)
    (save_file : string) (st : State) (pre post : list string) (p : string)
    (e1 e2 : exn) :
  file_list st = pre ++ p :: post ->
  (forall q, q ∈ pre -> read_text w q = Ok (contents q)) ->
  read_text w p = Raise e1 -> is_OSError e1 = true ->
  open_w w save_file = None ->
  (forall k, k <= 3 * List.length pre -> write_w w k = None) ->
  close_w w = Some e2 ->
  is_OSError e2 = true ->
  save_combined w save_file st =
    (Ok tt,
     with_log
       (with_out_file st
          (Some (take_chunks (kept_w w)
                   (blocks_chunks contents pre
                      ++ [seperator +:+ p +:+ newline +:+ seperator]))))
       [read_error_line e1 p; save_error_line e2 save_file]).
Proof.
  intros Hl Hr Hp He1 Ho Hw Hc He2.
  unfold save_combined, try_except. unfold bind at 1.
  erewrite with_open_w_close_fails; [|exact Ho|exact Hc|].
  2:{ unfold bind at 1. unfold get. cbn [with_out_file file_list].
      unfold bind at 1. rewrite Hl.
      rewrite (for_each_write_block_read_fails w contents pre post p _ e1);
        [reflexivity|exact Hr|exact Hp|exact He1|reflexivity|exact Hw]. }
  cbn [with_out_file with_log out_file option_map].
  destruct e2; try discriminate He2;
    unfold log_append, with_log, with_out_file;
    cbn [file_list file_table last_directory log_textbox out_file save_error_line];
    rewrite <- app_assoc; reflexivity.
Qed.

End ReadFailures.



(** X9.  When the read of a listed file fails with an exception
    [read_file] catches and the destination then fails, in the write of
    the header of that file or, that write having returned, in the close
    that follows the [TypeError] of [f.write(None)], [combine_files]
    returns normally: it has logged the read error and then the error of
    the destination (the error of the close replaces the [TypeError]), and
    the destination holds the first [kept_w] bytes of the blocks of the
    files before and the header. *)
Theorem combine_files_read_then_sink_failure (w : World) (st : State)
    (contents : string -> string) (pre post : list string) (p : string)
    (e1 e2 : exn)
    (Hsave : getSaveFileName w (offered_path w st) <> EmptyString)
    (Hlist : file_list st = pre ++ p :: post)
    (Hread : forall q, q ∈ pre -> read_text w q = Ok (contents q))
    (Hp : read_text w p = Raise e1)
    (He1 : is_OSError e1 = true)
    (Hopen : open_w w (getSaveFileName w (offered_path w st)) = None)
    (Hwrite : forall k, k < 3 * List.length pre -> write_w w k = None) :
  let save_file := getSaveFileName w (offered_path w st) in
  let left_in_file :=
    Some (take_chunks (kept_w w)
            (blocks_chunks contents pre ++ [seperator +:+ p +:+ newline +:+ seperator])) in
  (write_w w (3 * List.length pre) = Some e2 ->
   is_OSError (leaving_exn w e2) = true ->
   combine_files w st =
     (Ok tt,
      combined_state st save_file
        [read_error_line e1 p; save_error_line (leaving_exn w e2) save_file]
        left_in_file)) /\
  (write_w w (3 * List.length pre) = None ->
   close_w w = Some e2 ->
   is_OSError e2 = true ->
   combine_files w st =
     (Ok tt,
      combined_state st save_file
        [read_error_line e1 p; save_error_line e2 save_file]
        left_in_file)).
Proof.
  cbn zeta. split.
  - intros Hfail He2.
    rewrite (combine_files_dialog w st Hsave).
    rewrite (save_combined_read_then_sink_fails w contents _ _ pre post p e1 e2);
      try assumption; reflexivity.
  - intros Hhead Hclose He2.
    rewrite (combine_files_dialog w st Hsave).
    rewrite (save_combined_read_then_close_fails w contents _ _ pre post p e1 e2);
      try assumption; [reflexivity|].
    intros k Hk. destruct (decide (k = 3 * List.length pre)) as [->|Hne];
      [exact Hhead|apply Hwrite; lia].
Qed.

Lemma combine_files_read_then_sink_failure_witness :
  combine_files (full_device_world reads_a_only (fun _ => None) false 100)
    (state_of_list ["/tmp/a.txt"; "/tmp/b.txt"])
  = (Ok tt,
     mkState ["/tmp/a.txt"; "/tmp/b.txt"]
       (populated ["/tmp/a.txt"; "/tmp/b.txt"]) "/tmp"
       ["File not found: /tmp/b.txt";
        "Error saving combined file: [Errno 28] No space left on device"]
       (Some [seperator +:+ "/tmp/a.txt" +:+ newline +:+ "****************";
              ""; ""; ""])).
Proof.
  destruct (combine_files_read_then_sink_failure
              (full_device_world reads_a_only (fun _ => None) false 100)
              (state_of_list ["/tmp/a.txt"; "/tmp/b.txt"])
              contents_a_b ["/tmp/a.txt"] [] "/tmp/b.txt" FileNotFoundError no_space)
    as (_ & H).
  - simpl. discriminate.
  - reflexivity.
  - intros q Hq. apply list_elem_of_singleton in Hq. subst. reflexivity.
  - reflexivity.
  - reflexivity.
  - reflexivity.
  - intros k Hk. reflexivity.
  - rewrite H; [vm_compute; reflexivity|reflexivity|reflexivity|reflexivity].
Defined.

(** ** What can be in the destination *)

Section Destination.

Variable w : World.

Lemma contents_of_ok (file_path content : string) :
  read_text w file_path = Ok content -> contents_of w file_path = content.
Proof. intros H. unfold contents_of. rewrite H. reflexivity. Qed.

Lemma contents_of_failed (file_path : string) (e : exn) :
  read_text w file_path = Raise e -> contents_of w file_path = EmptyString.
Proof. intros H. unfold contents_of. rewrite H. reflexivity. Qed.

Lemma text_prefix_refl (t : string) : text_prefix t t.
Proof. exists EmptyString. symmetry. apply append_empty_r. Qed.

Lemma text_prefix_trans (a b c : string) :
  text_prefix a b -> text_prefix b c -> text_prefix a c.
Proof.
  intros [r ->] [r' ->]. exists (r +:+ r'). apply append_assoc_s.
Qed.

Lemma written_text_prefix_app (a b : list string) :
  text_prefix (written_text a) (written_text (a ++ b)).
Proof. exists (written_text b). apply written_text_app. Qed.

(** What the device took of the strings handed over is the beginning of
    their text, and so of any text that goes on from them. *)
Lemma written_text_prefix_cut (n : nat) (a b : list string) :
  text_prefix (written_text (take_chunks n a)) (written_text (a ++ b)).
Proof.
  apply (text_prefix_trans _ (written_text a)); [|apply written_text_prefix_app].
  rewrite written_text_take_chunks. apply take_bytes_prefix.
Qed.

(** One pass of the loop adds its three strings when it returns; when it
    raises, the destination holds a beginning of the text with them. *)
Lemma write_block_writes_prefix (file_path : string) (st : State) (chunks : list string) :
  out_file st = Some chunks ->
  exists chunks',
    out_file (snd (write_block w file_path st)) = Some chunks' /\
    text_prefix (written_text chunks')
      (written_text (chunks ++ block_chunks file_path (contents_of w file_path))) /\
    (fst (write_block w file_path st) = Ok tt ->
     chunks' = chunks ++ block_chunks file_path (contents_of w file_path)).
Proof.
  intros Ho.
  destruct (read_text w file_path) as [content|e] eqn:Hr.
  - rewrite (contents_of_ok _ _ Hr).
    assert (Hfail : forall j e,
               j < 3 ->
               (forall k, List.length chunks <= k < List.length chunks + j ->
                          write_w w k = None) ->
               write_w w (List.length chunks + j) = Some e ->
               exists chunks',
                 out_file (snd (write_block w file_path st)) = Some chunks' /\
                 text_prefix (written_text chunks')
                   (written_text (chunks ++ block_chunks file_path content)) /\
                 (fst (write_block w file_path st) = Ok tt ->
                  chunks' = chunks ++ block_chunks file_path content)).
    { intros j e Hj Hw He.
      rewrite (write_block_sink_fails w _ content st chunks j e Hr Ho Hj Hw He).
      eexists. split; [reflexivity|]. split; [|discriminate].
      replace (chunks ++ block_chunks file_path content)
        with ((chunks ++ take (S j) (block_chunks file_path content))
                ++ drop (S j) (block_chunks file_path content))
        by (rewrite <- app_assoc, take_drop; reflexivity).
      apply written_text_prefix_cut. }
    destruct (write_w w (List.length chunks + 0)) as [e|] eqn:H0;
      [apply (Hfail 0 e); [lia|intros k Hk; lia|exact H0]|].
    destruct (write_w w (List.length chunks + 1)) as [e|] eqn:H1;
      [apply (Hfail 1 e); [lia| |exact H1];
       intros k Hk; replace k with (List.length chunks + 0) by lia; exact H0|].
    destruct (write_w w (List.length chunks + 2)) as [e|] eqn:H2;
      [apply (Hfail 2 e); [lia| |exact H2];
       intros k Hk;
       destruct (decide (k = List.length chunks + 0)) as [->|];
       [exact H0|replace k with (List.length chunks + 1) by lia; exact H1]|].
    rewrite (write_block_ok w _ content st chunks Hr Ho).
    + eexists. split; [reflexivity|]. split; [apply text_prefix_refl|reflexivity].
    + intros k Hk.
      destruct (decide (k = List.length chunks + 0)) as [->|]; [exact H0|].
      destruct (decide (k = List.length chunks + 1)) as [->|]; [exact H1|].
      replace k with (List.length chunks + 2) by lia. exact H2.
  - rewrite (contents_of_failed _ _ Hr).
    destruct (is_OSError e) eqn:He.
    + destruct (write_w w (List.length chunks)) as [e2|] eqn:H0.
      * rewrite (write_block_read_then_sink_fails w _ e e2 st chunks Hr He Ho H0).
        eexists. split; [reflexivity|]. split; [|discriminate].
        replace (chunks ++ block_chunks file_path EmptyString)
          with ((chunks ++ [seperator +:+ file_path +:+ newline +:+ seperator])
                  ++ [EmptyString; newline +:+ newline])
          by (rewrite <- app_assoc; reflexivity).
        apply written_text_prefix_cut.
      * rewrite (write_block_read_fails w _ e st chunks Hr He Ho H0).
        eexists. split; [reflexivity|]. split; [|discriminate].
        replace (chunks ++ block_chunks file_path EmptyString)
          with ((chunks ++ [seperator +:+ file_path +:+ newline +:+ seperator])
                  ++ [EmptyString; newline +:+ newline])
          by (rewrite <- app_assoc; reflexivity).
        apply written_text_prefix_app.
    + rewrite (write_block_read_uncaught w _ e st Hr He).
      exists chunks. split; [exact Ho|]. split; [|discriminate].
      apply written_text_prefix_app.
Qed.

Lemma for_each_write_block_writes_prefix (l : list string) :
  forall (st : State) (chunks : list string),
    out_file st = Some chunks ->
    exists chunks',
      out_file (snd (for_each l (write_block w) st)) = Some chunks' /\
      text_prefix (written_text chunks')
        (written_text (chunks ++ blocks_chunks (contents_of w) l)).
Proof.
  induction l as [|p l IH]; intros st chunks Ho.
  - exists chunks. split; [exact Ho|].
    unfold blocks_chunks. cbn [flat_map]. rewrite app_nil_r. apply text_prefix_refl.
  - cbn [for_each]. unfold bind.
    destruct (write_block_writes_prefix p st chunks Ho) as (chunks1 & Hout & Hpre & Hok).
    unfold blocks_chunks. cbn [flat_map]. fold (blocks_chunks (contents_of w) l).
    rewrite app_assoc.
    destruct (write_block w p st) as [[[]|e] st1]; cbn [fst snd] in *.
    + rewrite (Hok eq_refl) in Hout. apply (IH st1 _ Hout).
    + exists chunks1. split; [exact Hout|].
      apply (text_prefix_trans _ _ _ Hpre). apply written_text_prefix_app.
Qed.

Lemma save_combined_writes_prefix (save_file : string) (st : State) :
  open_w w save_file = None ->
  exists chunks,
    out_file (snd (save_combined w save_file st)) = Some chunks /\
    text_prefix (written_text chunks)
      (written_text (blocks_chunks (contents_of w) (file_list st))).
Proof.
  intros Ho.
  destruct (for_each_write_block_writes_prefix (file_list st)
              (with_out_file st (Some [])) [] eq_refl) as (chunks1 & Hout & Hpre).
  cbn [app] in Hpre.
  unfold save_combined, try_except, with_open_w. unfold bind at 1. rewrite Ho.
  unfold bind at 1. cbn [set_out_file]. fold (with_out_file st (Some [])).
  unfold bind at 1. unfold get. cbn [with_out_file file_list] in *.
  unfold bind at 1.
  destruct (for_each (file_list st) (write_block w) _) as [r st1];
    cbn [snd] in Hout.
  destruct (close_w w) as [e'|].
  - exists (take_chunks (kept_w w) chunks1). split.
    + destruct r as [[]|e]; cbn [log_append]; unfold bind, cut_out_file, bind, get;
        cbn [set_out_file out_file raise]; rewrite ?Hout; destruct e'; reflexivity.
    + apply (text_prefix_trans _ (written_text chunks1)); [|exact Hpre].
      rewrite written_text_take_chunks. apply take_bytes_prefix.
  - exists chunks1. split; [|exact Hpre].
    destruct r as [[]|e]; [exact Hout|destruct e; exact Hout].
Qed.

Lemma save_combined_not_opened (save_file : string) (st : State) (e : exn) :
  open_w w save_file = Some e ->
  out_file (snd (save_combined w save_file st)) = out_file st.
Proof.
  intros Ho. unfold save_combined, try_except. unfold bind at 1.
  rewrite (with_open_w_refused w _ _ _ _ Ho). destruct e; reflexivity.
Qed.

End Destination.

(** X10.  Whatever the files and the destination do, and whether
    [combine_files] returns or raises: when the dialog gives a destination
    and it opens, the text the run leaves in it is a beginning of the text
    of a complete run (for each listed file in order its header, its
    content and two line breaks, the content of a file that cannot be read
    being empty), cut at any byte, also inside a string; so nothing is
    ever written out of order, twice or from anywhere else.  When the
    dialog is cancelled or the destination does not open, the destination
    is left untouched. *)
Theorem combine_files_writes_prefix (w : World) (st : State) :
  match getSaveFileName w (offered_path w st),
        open_w w (getSaveFileName w (offered_path w st)) with
  | String _ _, None =>
      exists chunks,
        out_file (snd (combine_files w st)) = Some chunks /\
        text_prefix (written_text chunks)
          (written_text
             (map (fun p => spec_block p (contents_of w p)) (file_list st)))
  | _, _ => out_file (snd (combine_files w st)) = out_file st
  end.
Proof.
  destruct (getSaveFileName w (offered_path w st)) as [|c s] eqn:Hs.
  - rewrite combine_files_cancelled by exact Hs. reflexivity.
  - destruct (open_w w (String c s)) as [e|] eqn:Ho.
    + rewrite combine_files_dialog by (rewrite Hs; discriminate). rewrite Hs.
      rewrite (save_combined_not_opened w _ _ e Ho). reflexivity.
    + rewrite combine_files_dialog by (rewrite Hs; discriminate). rewrite Hs.
      destruct (save_combined_writes_prefix w (String c s)
                  (with_directory st (rsplit_head (String c s))) Ho)
        as (chunks & Hout & Hpre).
      exists chunks. split; [exact Hout|].
      rewrite <- written_text_blocks_chunks. exact Hpre.
Qed.

(** ** One default name per day *)

Lemma append_inj_same_length (a a' b b' : string) :
  String.length a = String.length a' ->
  a +:+ b = a' +:+ b' -> a = a' /\ b = b'.
Proof.
  revert a'. induction a as [|x a IH]; intros [|x' a'] Hlen Heq;
    try discriminate Hlen.
  - split; [reflexivity|exact Heq].
  - change (String x (a +:+ b) = String x' (a' +:+ b')) in Heq.
    injection Heq as -> Heq. injection Hlen as Hlen.
    destruct (IH a' Hlen Heq) as [-> ->]. split; reflexivity.
Qed.

Lemma zero_pad_inj (width n m : nat) :
  n < 10 ^ width -> m < 10 ^ width ->
  zero_pad width n = zero_pad width m -> n = m.
Proof.
  intros Hn Hm Heq.
  destruct (zero_pad_is_decimal width n Hn) as [_ Dn].
  destruct (zero_pad_is_decimal width m Hm) as [_ Dm].
  rewrite Heq in Dn. congruence.
Qed.

(** X11.  Two different dates (years of four digits) never give the same
    default file name. *)
Theorem default_filename_differs (d1 d2 : datetime)
    (Hy1 : 1000 <= year d1 <= 9999) (Hm1 : 1 <= month d1 <= 12)
    (Hd1 : 1 <= day d1 <= 31)
    (Hy2 : 1000 <= year d2 <= 9999) (Hm2 : 1 <= month d2 <= 12)
    (Hd2 : 1 <= day d2 <= 31)
    (Hne : d1 <> d2) :
  default_filename d1 <> default_filename d2.
Proof.
  intros Heq. apply Hne. clear Hne.
  unfold default_filename, strftime_Ymd in Heq.
  apply (String.app_inj "combined_") in Heq.
  rewrite !append_assoc_s in Heq.
  apply append_inj_same_length in Heq as [Hy Heq];
    [|rewrite !zero_pad_length; reflexivity].
  apply append_inj_same_length in Heq as [Hm Heq];
    [|rewrite !zero_pad_length; reflexivity].
  apply append_inj_same_length in Heq as [Hd _];
    [|rewrite !zero_pad_length; reflexivity].
  assert (Hmax : 9999 = 9 * 1000 + 999) by reflexivity.
  apply zero_pad_inj in Hy; [|cbn [Nat.pow]; lia|cbn [Nat.pow]; lia].
  apply zero_pad_inj in Hm; [|cbn [Nat.pow]; lia|cbn [Nat.pow]; lia].
  apply zero_pad_inj in Hd; [|cbn [Nat.pow]; lia|cbn [Nat.pow]; lia].
  destruct d1, d2; cbn [year month day] in *. congruence.
Qed.

Lemma default_filename_differs_witness :
  default_filename (mkDate 2024 10 18) <> default_filename (mkDate 2024 10 19).
Proof.
  apply (default_filename_differs (mkDate 2024 10 18) (mkDate 2024 10 19)).
  - cbn [year]. split; [lia|apply Nat.leb_le; reflexivity].
  - cbn [month]. lia.
  - cbn [day]. lia.
  - cbn [year]. split; [lia|apply Nat.leb_le; reflexivity].
  - cbn [month]. lia.
  - cbn [day]. lia.
  - discriminate.
Defined.

(** ** A drop without a current row *)

Lemma py_index_minus_one (len : nat) :
  0 < len -> py_index len (-1) = Some (len - 1).
Proof.
  intros H. unfold py_index.
  destruct (Z.leb_spec 0 (-1)); [lia|].
  destruct (Z.leb_spec (- Z.of_nat len) (-1)); [|lia].
  f_equal. lia.
Qed.

(** X12.  When the table reports no current row ([currentRow()] is -1)
    and the drop is on an existing row, the guard lets the drop through
    and Python's indexing from the end makes it exchange the last entry of
    the list with the entry of the target row; the drop returns normally
    and every other entry stays where it was. *)
Theorem dropEvent_without_current_row (st : State) (tgt : Z)
    (Htgt : (0 <= tgt < Z.of_nat (List.length (file_list st)))%Z) :
  exists st',
    dropEvent true (-1) tgt st = (Ok tt, st') /\
    List.length (file_list st') = List.length (file_list st) /\
    file_list st' !! Z.to_nat tgt =
      file_list st !! (List.length (file_list st) - 1) /\
    file_list st' !! (List.length (file_list st) - 1) =
      file_list st !! Z.to_nat tgt /\
    forall k, k <> Z.to_nat tgt -> k <> List.length (file_list st) - 1 ->
              file_list st' !! k = file_list st !! k.
Proof.
  destruct (dropEvent_exchanges st (-1) tgt
              (List.length (file_list st) - 1) (Z.to_nat tgt))
    as (li & lj & Hli & Hlj & Hrun);
    [lia|lia|apply py_index_minus_one; lia|apply py_index_in_range; exact Htgt|].
  eexists. split; [exact Hrun|]. cbn [with_file_list file_list].
  split; [apply exchanged_length|].
  split; [|split].
  - rewrite (exchanged_lookup _ _ _ _ _ _ Hli Hlj).
    repeat (case_decide; try congruence).
  - rewrite (exchanged_lookup _ _ _ _ _ _ Hli Hlj).
    repeat (case_decide; try congruence).
  - intros k Hk1 Hk2. rewrite (exchanged_lookup _ _ _ _ _ _ Hli Hlj).
    repeat (case_decide; try congruence).
Qed.

Lemma dropEvent_without_current_row_witness :
  dropEvent true (-1) 0 (state_of_list ["/tmp/a.txt"; "/tmp/b.txt"; "/tmp/c.txt"])
  = (Ok tt, state_of_list ["/tmp/c.txt"; "/tmp/b.txt"; "/tmp/a.txt"]).
Proof.
  destruct (dropEvent_without_current_row
              (state_of_list ["/tmp/a.txt"; "/tmp/b.txt"; "/tmp/c.txt"]) 0)
    as (st' & Hrun & _); [simpl; lia|].
  reflexivity.
Defined.
